(** * A shallow embedding of the local/Yandex.Disk file synchronizer.

    The Python sources modelled here are [sync/sync_data.py]
    ([StorageSynchronizer]), [sync/metadata_manager.py] ([MetadataCache]),
    [sync/local_storage.py] ([ManagerLocalStorage]),
    [sync/yandex_disk.py] ([ManagerYandexDiskStorage]),
    [utils/utils.py] and [main.py].

    Modelling conventions.
    - Times are whole seconds ([Z]).  The source rounds every float it reads
      with [math.ceil] before it stores it, so on whole seconds [ceil] is the
      identity; sub-second float behaviour is not modelled.
    - A Python [dict[str, int]] is an association list in insertion order
      ([dict]); assignment to an existing key keeps its position, a new key
      is appended, [pop] removes the key, and [==] is order-insensitive.
    - The engine's two snapshots and the cache are objects; the only aliasing
      the source can create is [self._cache.metadata = self._local_info], which
      makes the cache and the local snapshot one dict.  The flag [alias]
      records it, and while it is set every write goes to both fields.
    - The file system, the remote folder, the network and the clock are part
      of the state; [faults] lists the engine calls whose transfer fails in
      the environment.
    - Exceptions are values of [exc]; the monad [M] threads the state and
      carries a raised exception together with the state reached. *)

From Stdlib Require Import String List ZArith Bool Lia.
Import ListNotations.

Open Scope Z_scope.
Open Scope bool_scope.

(** ** Exceptions and their classes *)

Inductive exc : Type :=
| FileNotFoundError
| PermissionError          (* any other OSError raised by the file system *)
| OSError                  (* a bare [OSError(...)] raised by the code *)
| TypeError
| ConnectionError          (* requests.exceptions.ConnectionError *)
| UnauthorizedError
| DiskNotFoundError
| KeyError
| PyException              (* a bare [Exception(...)] raised by the code *)
| UnicodeDecodeError
| JSONDecodeError.

(** [isinstance(e, OSError)]; requests' [ConnectionError] derives from
    [IOError], which is [OSError]. *)
Definition is_oserror (e : exc) : bool :=
  match e with
  | FileNotFoundError | PermissionError | OSError | ConnectionError => true
  | _ => false
  end.

Definition is_file_not_found (e : exc) : bool :=
  match e with FileNotFoundError => true | _ => false end.

Definition is_type_error (e : exc) : bool :=
  match e with TypeError => true | _ => false end.

Definition is_connection_error (e : exc) : bool :=
  match e with ConnectionError => true | _ => false end.

Definition is_unauthorized (e : exc) : bool :=
  match e with UnauthorizedError => true | _ => false end.

Definition is_disk_not_found (e : exc) : bool :=
  match e with DiskNotFoundError => true | _ => false end.

Definition is_key_error (e : exc) : bool :=
  match e with KeyError => true | _ => false end.

(** ** Dicts *)

Definition dict := list (string * Z).

Fixpoint dict_get (d : dict) (k : string) : option Z :=
  match d with
  | [] => None
  | (k', v) :: r => if String.eqb k k' then Some v else dict_get r k
  end.

Definition dict_mem (d : dict) (k : string) : bool :=
  match dict_get d k with Some _ => true | None => false end.

(** [d[k] = v] *)
Fixpoint dict_set (d : dict) (k : string) (v : Z) : dict :=
  match d with
  | [] => [(k, v)]
  | (k', v') :: r =>
      if String.eqb k k' then (k', v) :: r else (k', v') :: dict_set r k v
  end.

(** [d.pop(k)] on a present key *)
Fixpoint dict_pop (d : dict) (k : string) : dict :=
  match d with
  | [] => []
  | (k', v') :: r => if String.eqb k k' then r else (k', v') :: dict_pop r k
  end.

Definition dict_keys (d : dict) : list string := map fst d.

(** [d1 == d2]: same size and every item of [d1] is an item of [d2]. *)
Definition dict_eqb (d1 d2 : dict) : bool :=
  Nat.eqb (length d1) (length d2)
  && forallb (fun kv => match dict_get d2 (fst kv) with
                        | Some v => Z.eqb (snd kv) v
                        | None => false
                        end) d1.

Definition dict_is_empty (d : dict) : bool :=
  match d with [] => true | _ => false end.

(** ** The world and the engine's state *)

(** An entry of the local directory: [os.path.isfile], the modification
    time read by [os.path.getmtime] and, when reading it fails, the error. *)
Record lentry : Type := mkLentry {
  le_name : string;
  le_isfile : bool;
  le_mtime : Z;
  le_stat_err : option exc
}.

(** An item of the remote folder listing: name, [type == "file"], and
    [modified] already converted by [to_unix_timestamp]. *)
Record rentry : Type := mkRentry {
  re_name : string;
  re_isfile : bool;
  re_modified : Z
}.

Inductive net : Type := NetOk | NetDown | NetUnauth.

(** Calls of the engine into the storage managers. *)
Inductive call : Type :=
| CLoad (n : string)           (* manager_cloud.load *)
| CReload (n : string)         (* manager_cloud.reload *)
| CDownload (n : string)       (* manager_cloud.download *)
| CUpdate (n : string)         (* manager_cloud.update *)
| CDeleteLocal (n : string)    (* manager_local.delete *)
| CDeleteRemote (n : string).  (* manager_cloud.delete *)

Inductive event : Type :=
| ECall (c : call)
| ECachePut (n : string) (t : Z)   (* update_file_cache, dumped *)
| ECacheDel (n : string)           (* delete_file_cache, dumped *)
| ECacheClear                      (* delete_data_cache, dumped *)
| ECacheSeed                       (* metadata setter, dumped *)
| ELogError (e : exc).             (* log.error of an exception *)

Record state : Type := mkState {
  ldir : option (list lentry);   (* None: the local folder is not there *)
  rdir : option (list rentry);   (* None: the remote folder is not there *)
  network : net;
  faults : list call;
  now : Z;                       (* time() on the local clock *)
  server_now : Z;                (* the remote's clock, stamps uploads *)
  sync_time : Z;                 (* the clock-correlation offset *)
  local_info : dict;
  cloud_info : dict;
  cache_md : dict;               (* MetadataCache._metadata, a JSON object *)
  alias : bool;                  (* cache_md and local_info are one dict *)
  log : list event
}.

Definition set_ldir (x : option (list lentry)) (s : state) : state :=
  mkState x (rdir s) (network s) (faults s) (now s) (server_now s) (sync_time s)
    (local_info s) (cloud_info s) (cache_md s) (alias s) (log s).
Definition set_rdir (x : option (list rentry)) (s : state) : state :=
  mkState (ldir s) x (network s) (faults s) (now s) (server_now s) (sync_time s)
    (local_info s) (cloud_info s) (cache_md s) (alias s) (log s).
Definition set_local_info (x : dict) (s : state) : state :=
  mkState (ldir s) (rdir s) (network s) (faults s) (now s) (server_now s) (sync_time s)
    x (cloud_info s) (cache_md s) (alias s) (log s).
Definition set_cloud_info (x : dict) (s : state) : state :=
  mkState (ldir s) (rdir s) (network s) (faults s) (now s) (server_now s) (sync_time s)
    (local_info s) x (cache_md s) (alias s) (log s).
Definition set_cache_md (x : dict) (s : state) : state :=
  mkState (ldir s) (rdir s) (network s) (faults s) (now s) (server_now s) (sync_time s)
    (local_info s) (cloud_info s) x (alias s) (log s).
Definition set_alias (x : bool) (s : state) : state :=
  mkState (ldir s) (rdir s) (network s) (faults s) (now s) (server_now s) (sync_time s)
    (local_info s) (cloud_info s) (cache_md s) x (log s).
Definition set_sync_time (x : Z) (s : state) : state :=
  mkState (ldir s) (rdir s) (network s) (faults s) (now s) (server_now s) x
    (local_info s) (cloud_info s) (cache_md s) (alias s) (log s).
Definition set_now (x : Z) (s : state) : state :=
  mkState (ldir s) (rdir s) (network s) (faults s) x (server_now s) (sync_time s)
    (local_info s) (cloud_info s) (cache_md s) (alias s) (log s).
Definition emit (e : event) (s : state) : state :=
  mkState (ldir s) (rdir s) (network s) (faults s) (now s) (server_now s) (sync_time s)
    (local_info s) (cloud_info s) (cache_md s) (alias s) (log s ++ [e]).

(** ** The state and exception monad *)

Inductive res (A : Type) : Type :=
| Ok (a : A)
| Exc (e : exc).
Arguments Ok {A} a.
Arguments Exc {A} e.

Definition M (A : Type) : Type := state -> res A * state.

Definition ret {A} (a : A) : M A := fun s => (Ok a, s).

Definition bind {A B} (m : M A) (k : A -> M B) : M B :=
  fun s => match m s with
           | (Ok a, s') => k a s'
           | (Exc e, s') => (Exc e, s')
           end.

Definition raise {A} (e : exc) : M A := fun s => (Exc e, s).

(** [try: m except e: h e] *)
Definition try_catch {A} (m : M A) (h : exc -> M A) : M A :=
  fun s => match m s with
           | (Exc e, s') => h e s'
           | r => r
           end.

Definition gets {A} (f : state -> A) : M A := fun s => (Ok (f s), s).
Definition modify (f : state -> state) : M unit := fun s => (Ok tt, f s).

Notation "x <- m ;; k" := (bind m (fun x => k))
  (at level 61, m at next level, right associativity).
Notation "m ;; k" := (bind m (fun _ : unit => k))
  (at level 61, right associativity).

Definition log_error (e : exc) : M unit := modify (emit (ELogError e)).

(** [for x in l: f x] *)
Fixpoint iter_m {A} (f : A -> M unit) (l : list A) : M unit :=
  match l with
  | [] => ret tt
  | x :: r => f x ;; iter_m f r
  end.

(** A loop accumulating into a value. *)
Fixpoint fold_m {A B} (f : A -> B -> M A) (acc : A) (l : list B) : M A :=
  match l with
  | [] => ret acc
  | x :: r => bind (f acc x) (fun acc' => fold_m f acc' r)
  end.

(** ** utils/utils.py *)

(** [get_time_correlation(current_time, sync_time) = ceil(current_time) + sync_time];
    [ceil] is the identity on whole seconds. *)
Definition get_time_correlation (current_time sync_time : Z) : Z :=
  current_time + sync_time.

(** [get_ntp_time()]: [ntp] is the outcome of [client.request(...)] (the
    server's [tx_time], or the exception raised on the way); any exception
    is logged and the offset is [0]. *)
Definition get_ntp_time (ntp : res Z) (local_time : Z) : Z * list event :=
  match ntp with
  | Ok tx_time => (tx_time - local_time, [])
  | Exc e => (0, [ELogError e])
  end.

(** ** sync/local_storage.py: ManagerLocalStorage *)

Fixpoint find_lentry (n : string) (es : list lentry) : option lentry :=
  match es with
  | [] => None
  | e :: r => if String.eqb n (le_name e) then Some e else find_lentry n r
  end.

(** [_get_file_time_modified]: both handlers log and fall through, so the
    method returns [None] on an error. *)
Definition get_file_time_modified (le : lentry) : M (option Z) :=
  match le_stat_err le with
  | None => ret (Some (le_mtime le))
  | Some e => if is_oserror e then log_error e ;; ret None else raise e
  end.

(** One iteration of the loop of [get_info]; [ceil(None)] inside
    [get_time_correlation] raises [TypeError]. *)
Definition local_info_step (sync : Z) (acc : dict) (le : lentry) : M dict :=
  if le_isfile le && negb (String.prefix "~" (le_name le)) then
    try_catch
      (time_modified <- get_file_time_modified le ;;
       match time_modified with
       | None => raise TypeError
       | Some t => ret (dict_set acc (le_name le) (get_time_correlation t sync))
       end)
      (fun e => if is_oserror e then log_error e ;; ret acc else raise e)
  else ret acc.

(** [ManagerLocalStorage.get_info]; a failing [os.listdir] leads to
    [os.makedirs] and a raised [OSError].  The model takes [os.makedirs] to
    succeed; when it fails too, its own [OSError] propagates and the folder
    stays missing. *)
Definition local_get_info : M dict :=
  fun s =>
    match ldir s with
    | None => (Exc OSError, set_ldir (Some []) s)
    | Some es =>
        try_catch (fold_m (local_info_step (sync_time s)) [] es)
          (fun e => if is_oserror e then raise OSError else raise e) s
    end.

Fixpoint remove_lentry (n : string) (es : list lentry) : list lentry :=
  match es with
  | [] => []
  | e :: r => if String.eqb n (le_name e) then r else e :: remove_lentry n r
  end.

(** [ManagerLocalStorage.delete]: [os.remove] raises [FileNotFoundError]
    on a missing path and another [OSError] on a directory or a refused
    removal; these are re-raised as [FileNotFoundError] and [OSError].  An
    entry that is not a regular file is taken to be a directory; symlinks,
    FIFOs and sockets, which [os.remove] removes, are not modelled. *)
Definition local_delete (n : string) : M unit :=
  fun s =>
    match ldir s with
    | None => (Exc FileNotFoundError, s)
    | Some es =>
        match find_lentry n es with
        | None => (Exc FileNotFoundError, s)
        | Some le =>
            if existsb (fun c => match c with CDeleteLocal m => String.eqb m n | _ => false end)
                 (faults s) || negb (le_isfile le)
            then (Exc OSError, emit (ELogError PermissionError) s)
            else (Ok tt, set_ldir (Some (remove_lentry n es)) s)
        end
    end.

(** Writing a downloaded file: its modification time is the local clock. *)
Fixpoint local_put (n : string) (t : Z) (es : list lentry) : list lentry :=
  match es with
  | [] => [mkLentry n true t None]
  | e :: r => if String.eqb n (le_name e) then mkLentry n true t None :: r
              else e :: local_put n t r
  end.

(** ** sync/yandex_disk.py: ManagerYandexDiskStorage *)

Fixpoint find_rfile (n : string) (es : list rentry) : bool :=
  match es with
  | [] => false
  | e :: r => (String.eqb n (re_name e) && re_isfile e) || find_rfile n r
  end.

Fixpoint remote_put (n : string) (t : Z) (es : list rentry) : list rentry :=
  match es with
  | [] => [mkRentry n true t]
  | e :: r => if String.eqb n (re_name e) then mkRentry n true t :: r
              else e :: remote_put n t r
  end.

Fixpoint remote_remove (n : string) (es : list rentry) : list rentry :=
  match es with
  | [] => []
  | e :: r => if String.eqb n (re_name e) then r else e :: remote_remove n r
  end.

Definition call_eqb (c1 c2 : call) : bool :=
  match c1, c2 with
  | CLoad a, CLoad b | CReload a, CReload b | CDownload a, CDownload b
  | CUpdate a, CUpdate b | CDeleteLocal a, CDeleteLocal b
  | CDeleteRemote a, CDeleteRemote b => String.eqb a b
  | _, _ => false
  end.

Definition faulty (c : call) (s : state) : bool := existsb (call_eqb c) (faults s).

(** [_create_backup_folder]: creates the folder when the API is reachable;
    connection and HTTP errors are swallowed.  The model takes the [PUT] to
    succeed on a reachable API; a refused one (e.g. 409 for a missing
    parent) leaves no folder, and other exceptions are re-raised. *)
Definition create_backup_folder : M unit :=
  fun s =>
    match network s, rdir s with
    | NetOk, None => (Ok tt, set_rdir (Some []) s)
    | _, _ => (Ok tt, s)
    end.

(** [_get_info_backup_folder]: the folder's items, or the error the API
    reports.  Only these answers are modelled: any other error body (a 503,
    say) ends in the code's [except Exception], which logs and returns
    [None], and [get_info] then returns [{}]. *)
Definition get_info_backup_folder : M (list rentry) :=
  fun s =>
    match network s with
    | NetDown => (Exc ConnectionError, s)
    | NetUnauth => (Exc UnauthorizedError, s)
    | NetOk =>
        match rdir s with
        | None => (Exc DiskNotFoundError, s)
        | Some items => (Ok items, s)
        end
    end.

Definition cloud_info_step (acc : dict) (item : rentry) : dict :=
  if String.prefix "~" (re_name item) || negb (re_isfile item) then acc
  else dict_set acc (re_name item) (re_modified item).

(** [ManagerYandexDiskStorage.get_info]: remote stamps are converted to
    Unix seconds; no offset is applied. *)
Definition cloud_get_info : M dict :=
  try_catch
    (items <- get_info_backup_folder ;;
     ret (fold_left cloud_info_step items []))
    (fun e =>
       if is_disk_not_found e then create_backup_folder ;; raise DiskNotFoundError
       else if is_key_error e then ret []
       else raise e).

(** [load] (and [reload], which calls it): [_get_transfer_url] fails
    without a reachable API, a remote folder or when the environment makes
    this call fail, and is wrapped into [Exception]; opening a missing local
    file raises [FileNotFoundError]. *)
Definition cloud_load (c : call) (n : string) : M unit :=
  fun s =>
    match ldir s with
    | None => (Exc OSError, s)
    | Some es =>
        match network s, rdir s with
        | NetOk, Some items =>
            if faulty c s then (Exc PyException, s)
            else match find_lentry n es with
                 | None => (Exc FileNotFoundError, s)
                 | Some le =>
                     if le_isfile le
                     then (Ok tt, set_rdir (Some (remote_put n (server_now s) items)) s)
                     else (Exc PyException, s)
                 end
        | _, _ => (Exc PyException, s)
        end
    end.

(** [download] (and [update], which calls it); every transfer error
    reaches the [except Exception] clause. *)
Definition cloud_download (c : call) (n : string) : M unit :=
  fun s =>
    match ldir s with
    | None => (Exc OSError, s)
    | Some es =>
        match network s, rdir s with
        | NetOk, Some items =>
            if faulty c s || negb (find_rfile n items) then (Exc PyException, s)
            else (Ok tt, set_ldir (Some (local_put n (now s) es)) s)
        | _, _ => (Exc PyException, s)
        end
    end.

(** [ManagerYandexDiskStorage.delete] *)
Definition cloud_delete (n : string) : M unit :=
  try_catch
    (info <- cloud_get_info ;;
     if negb (dict_mem info n) then ret tt
     else fun s =>
       if faulty (CDeleteRemote n) s then (Exc PyException, s)
       else match rdir s with
            | Some items => (Ok tt, set_rdir (Some (remote_remove n items)) s)
            | None => (Exc PyException, s)
            end)
    (fun e =>
       if is_key_error e then log_error e
       else if is_connection_error e then raise ConnectionError
       else raise PyException).

(** ** sync/metadata_manager.py: MetadataCache *)

(** Writing the cache dict; while it is the local snapshot, both change. *)
Definition put_cache (d : dict) (s : state) : state :=
  if alias s then set_local_info d (set_cache_md d s) else set_cache_md d s.

(** [update_file_cache]: [_metadata[n] = t] and [_dump_cache()]. *)
Definition update_file_cache (n : string) (t : Z) : M unit :=
  modify (fun s => emit (ECachePut n t) (put_cache (dict_set (cache_md s) n t) s)).

(** [delete_file_cache]: pop and dump when present, else only log. *)
Definition delete_file_cache (n : string) : M unit :=
  fun s =>
    if dict_mem (cache_md s) n
    then (Ok tt, emit (ECacheDel n) (put_cache (dict_pop (cache_md s) n) s))
    else (Ok tt, s).

(** [delete_data_cache]: [_metadata = {}], a fresh dict, and dump. *)
Definition delete_data_cache : M unit :=
  modify (fun s => emit ECacheClear (set_alias false (set_cache_md [] s))).

(** The [metadata] setter called with [self._local_info]. *)
Definition seed_cache_from_local_info : M unit :=
  modify (fun s => emit ECacheSeed (set_alias true (set_cache_md (local_info s) s))).

(** ** sync/sync_data.py: StorageSynchronizer *)

(** The two snapshot objects an argument [storage_info] can be. *)
Inductive dref : Type := RLocal | RCloud.

Definition get_ref (r : dref) (s : state) : dict :=
  match r with RLocal => local_info s | RCloud => cloud_info s end.

Definition put_ref (r : dref) (d : dict) (s : state) : state :=
  match r with
  | RLocal => if alias s then set_cache_md d (set_local_info d s) else set_local_info d s
  | RCloud => set_cloud_info d s
  end.

Inductive manager : Type := MLocal | MCloud.

(** A call of the engine into a manager, recorded before it runs. *)
Definition run_call (c : call) : M unit :=
  fun s =>
    let s := emit (ECall c) s in
    match c with
    | CLoad n => cloud_load c n s
    | CReload n => cloud_load c n s
    | CDownload n => cloud_download c n s
    | CUpdate n => cloud_download c n s
    | CDeleteLocal n => local_delete n s
    | CDeleteRemote n => cloud_delete n s
    end.

(** [manager.delete(file_name)] *)
Definition manager_delete (m : manager) (n : string) : M unit :=
  match m with
  | MLocal => run_call (CDeleteLocal n)
  | MCloud => run_call (CDeleteRemote n)
  end.

(** [_update_data] *)
Definition update_data (n : string) (r : dref) : M unit :=
  fun s =>
    let time_change := get_time_correlation (now s) (sync_time s) in
    let s := put_ref r (dict_set (get_ref r s) n time_change) s in
    update_file_cache n time_change s.

(** [_delete_data] *)
Definition delete_data (n : string) (r : dref) : M unit :=
  fun s =>
    let s := if dict_mem (get_ref r s) n then put_ref r (dict_pop (get_ref r s) n) s else s in
    delete_file_cache n s.

(** [_transfer_to_storage]; [func_transfer] is one of the manager's
    methods, given by the call it makes. *)
Definition transfer_to_storage (n : string) (r : dref) (func_transfer : string -> call) : M unit :=
  try_catch
    (md <- gets cache_md ;;
     if negb (dict_mem md n) then run_call (func_transfer n) ;; update_data n r
     else ret tt)
    log_error.

(** [_reload_to_storage]; [mod_time > None] raises [TypeError]. *)
Definition reload_to_storage (n : string) (mod_time : Z) (r : dref)
    (reload_func : string -> call) : M unit :=
  try_catch
    (md <- gets cache_md ;;
     match dict_get md n with
     | None => raise TypeError
     | Some cached =>
         if cached <? mod_time then run_call (reload_func n) ;; update_data n r
         else ret tt
     end)
    (fun e => if is_type_error e then ret tt else log_error e).

(** The body of the [for] loop of [_delete_in_storage]. *)
Definition delete_in_storage_item (m : manager) (r : dref) (other : dref)
    (is_first_launch : bool) (n : string) : M unit :=
  try_catch
    (si <- gets (get_ref r) ;;
     (if negb (dict_mem si n) && negb is_first_launch then
        try_catch
          (manager_delete m n ;;
           transfer_to_storage n RLocal CLoad ;;
           delete_data n other)
          (fun e => if is_file_not_found e then log_error e ;; delete_file_cache n
                    else log_error e)
      else ret tt) ;;
     si' <- gets (get_ref r) ;;
     ci <- gets cloud_info ;;
     if negb (dict_mem si' n) && is_first_launch then
       if dict_eqb si' ci then run_call (CLoad n) ;; update_data n r
       else ret tt
     else ret tt)
    (fun e => if is_file_not_found e then delete_file_cache n ;; log_error e
              else log_error e).

(** [_delete_in_storage]; the loop runs over [list(self._cache.metadata)]
    taken after the possible clearing. *)
Definition delete_in_storage (m : manager) (r : dref) (is_first_launch : bool) : M unit :=
  si <- gets (get_ref r) ;;
  ci <- gets cloud_info ;;
  li <- gets local_info ;;
  let other := if dict_eqb si ci then RLocal else RCloud in
  (if dict_is_empty si && dict_eqb si li && is_first_launch
   then delete_data_cache else ret tt) ;;
  names <- gets (fun s => dict_keys (cache_md s)) ;;
  iter_m (delete_in_storage_item m r other is_first_launch) names.

(** [_sync_files_change_locally].  Python iterates over the live
    [self._local_info.items()]; the body only assigns the key it is given,
    which is already in the dict, so iterating over the items taken at the
    start visits the same keys with the same values. *)
Definition sync_files_change_locally : M unit :=
  items <- gets local_info ;;
  try_catch
    (iter_m (fun kv => transfer_to_storage (fst kv) RCloud CLoad ;;
                       reload_to_storage (fst kv) (snd kv) RCloud CReload) items)
    log_error.

(** [_sync_files_change_cloudy]; the body never writes [self._cloud_info]. *)
Definition sync_files_change_cloudy : M unit :=
  items <- gets cloud_info ;;
  try_catch
    (iter_m (fun kv => transfer_to_storage (fst kv) RLocal CDownload ;;
                       reload_to_storage (fst kv) (snd kv) RLocal CUpdate) items)
    log_error.

(** The [try] block of [synchronize_data]. *)
Definition synchronize_body (is_first_launch : bool) : M unit :=
  li <- local_get_info ;;
  modify (fun s => set_local_info li (set_alias false s)) ;;
  md <- gets cache_md ;;
  (if dict_is_empty md then seed_cache_from_local_info else ret tt) ;;
  sync_files_change_locally ;;
  delete_in_storage MCloud RLocal is_first_launch ;;
  if is_first_launch then
    ci <- cloud_get_info ;;
    modify (set_cloud_info ci) ;;
    sync_files_change_cloudy ;;
    delete_in_storage MLocal RCloud is_first_launch
  else ret tt.

(** [synchronize_data]: the handlers in their order.  The restart after an
    [OSError] or a [DiskNotFoundError] is a recursive call; [fuel] bounds the
    number of restarts, and [None] is a run out of fuel. *)
Fixpoint synchronize_data (fuel : nat) (is_first_launch : bool) (s : state)
    : option (res unit * state) :=
  match synchronize_body is_first_launch s with
  | (Ok _, s') => Some (Ok tt, s')
  | (Exc e, s') =>
      if is_connection_error e then Some (log_error e s')
      else if is_unauthorized e then Some (log_error e s')
      else if is_oserror e || is_disk_not_found e then
        match fuel with
        | O => None
        | S fuel' => synchronize_data fuel' true (emit (ELogError e) s')
        end
      else Some (log_error e s')
  end.

(** ** main.py: start-up of [launch_file_synchronizer] *)

(** The state the first pass starts from: [get_ntp_time()] gives the offset
    handed to [ManagerLocalStorage] and [StorageSynchronizer]; the local
    folder is created when missing, the remote folder is ensured, and the
    synchronizer starts with empty snapshots. *)
Definition launch_init (ntp : res Z) (s : state) : state :=
  let (sync, evs) := get_ntp_time ntp (now s) in
  let s := mkState (match ldir s with None => Some [] | d => d end)
             (rdir s) (network s) (faults s) (now s) (server_now s) sync
             [] [] (cache_md s) false (log s ++ evs) in
  snd (create_backup_folder s).

(** [synchronizer.synchronize_data(is_first_launch=True)] after start-up. *)
Definition launch_file_synchronizer (fuel : nat) (ntp : res Z) (s : state)
    : option (res unit * state) :=
  synchronize_data fuel true (launch_init ntp s).

(** ** Loading the cache file: [MetadataCache._load_cache] *)

(** JSON values as [json.load] returns them. *)
#[warnings="-register-all"]
Inductive json : Type :=
| JNull
| JBool (b : bool)
| JNum (z : Z)
| JStr (t : string)
| JArray (l : list json)
| JObject (l : list (string * json)).

(** What [os.path.exists] and [open] find at the cache path. *)
Inductive cache_file : Type :=
| CFMissing
| CFUnopenable (e : exc)         (* [open] raises this OSError *)
| CFBytes (b : list Byte.byte).

Definition is_cont (b : Byte.byte) : bool :=
  let n := Byte.to_N b in ((128 <=? n) && (n <=? 191))%N.

Definition in_range (lo hi : N) (b : Byte.byte) : bool :=
  let n := Byte.to_N b in ((lo <=? n) && (n <=? hi))%N.

(** Strict UTF-8 decoding ([errors="strict"]) to code points: overlong
    forms, surrogates and values above U+10FFFF are rejected. *)
Fixpoint utf8_decode (bs : list Byte.byte) : option (list N) :=
  match bs with
  | [] => Some []
  | b0 :: r0 =>
      let n0 := Byte.to_N b0 in
      if (n0 <=? 127)%N then option_map (cons n0) (utf8_decode r0)
      else if in_range 194 223 b0 then
        match r0 with
        | b1 :: r1 =>
            if is_cont b1
            then option_map (cons ((n0 - 192) * 64 + (Byte.to_N b1 - 128))%N) (utf8_decode r1)
            else None
        | [] => None
        end
      else if in_range 224 239 b0 then
        match r0 with
        | b1 :: b2 :: r2 =>
            let ok1 := if (n0 =? 224)%N then in_range 160 191 b1
                       else if (n0 =? 237)%N then in_range 128 159 b1
                       else is_cont b1 in
            if ok1 && is_cont b2
            then option_map (cons ((n0 - 224) * 4096 + (Byte.to_N b1 - 128) * 64
                                   + (Byte.to_N b2 - 128))%N) (utf8_decode r2)
            else None
        | _ => None
        end
      else if in_range 240 244 b0 then
        match r0 with
        | b1 :: b2 :: b3 :: r3 =>
            let ok1 := if (n0 =? 240)%N then in_range 144 191 b1
                       else if (n0 =? 244)%N then in_range 128 143 b1
                       else is_cont b1 in
            if ok1 && is_cont b2 && is_cont b3
            then option_map (cons ((n0 - 240) * 262144 + (Byte.to_N b1 - 128) * 4096
                                   + (Byte.to_N b2 - 128) * 64 + (Byte.to_N b3 - 128))%N)
                   (utf8_decode r3)
            else None
        | _ => None
        end
      else None
  end.

(** [str.endswith(suffix)] *)
Definition ends_with (suffix t : string) : bool :=
  (String.length suffix <=? String.length t)%nat
  && String.eqb (substring (String.length t - String.length suffix)
                           (String.length suffix) t) suffix.

Section LoadCache.

(** [json.loads] on the decoded text: [None] is a [JSONDecodeError]. *)
Variable json_loads : list N -> option json.

(** [json.load(open(path, "r", encoding="utf-8"))] *)
Definition json_load (bs : list Byte.byte) : res json :=
  match utf8_decode bs with
  | None => Exc UnicodeDecodeError
  | Some text =>
      match json_loads text with
      | None => Exc JSONDecodeError
      | Some v => Ok v
      end
  end.

(** [_load_cache]: [except (IOError, json.JSONDecodeError): return {}]. *)
Definition load_cache (f : cache_file) : res json :=
  match f with
  | CFMissing => Ok (JObject [])
  | CFUnopenable e =>
      if is_oserror e then Ok (JObject []) else Exc e
  | CFBytes bs =>
      match json_load bs with
      | Exc e =>
          if is_oserror e || match e with JSONDecodeError => true | _ => false end
          then Ok (JObject []) else Exc e
      | Ok v => Ok v
      end
  end.

(** [MetadataCache.__init__]: a path not ending in [.json] is replaced by
    the default [metadata_local_cache.json] beside the package. *)
Definition metadata_cache_init (fs : string -> cache_file) (cache : string) : res json :=
  let cache := if ends_with ".json" cache then cache
               else "metadata_local_cache.json"%string in
  load_cache (fs cache).

End LoadCache.

(** ** Paths, settings and the cache path *)

(** *** posixpath: [os.path.isabs] and [os.path.join] *)

(** [posixpath.isabs(s)]: [s.startswith("/")]. *)
Definition isabs (s : string) : bool := String.prefix "/" s.

(** [posixpath.join(a, b)]: an absolute [b] replaces [a]; otherwise [b] is
    appended, with a separator unless [a] is empty or ends with one. *)
Definition path_join (a b : string) : string :=
  if String.prefix "/" b then b
  else if String.eqb a "" || ends_with "/" a then a ++ b
  else a ++ "/" ++ b.

(** *** config/settings.py: [Settings.__init__] *)

Record settings : Type := mkSettings {
  yandex_disk_token : string;
  path_folder : string;
  name_folder_in_cloud_storage : string;
  synchronization_period : Z;
  path_log_file : string
}.

(** The body of [Settings.__init__] after pydantic has filled the fields;
    [project_root] is [os.path.abspath(...)] of the package's parent, and
    [os.path.join(os.path.join(root, p))] is [os.path.join(root, p)]. *)
Definition settings_init (project_root : string) (st : settings) : settings :=
  let period := if synchronization_period st <? 0
                then synchronization_period st * -1
                else synchronization_period st in
  let pf := if negb (isabs (path_folder st))
            then path_join project_root (path_folder st) else path_folder st in
  let pl := if negb (isabs (path_log_file st))
            then path_join project_root (path_log_file st) else path_log_file st in
  mkSettings (yandex_disk_token st) pf (name_folder_in_cloud_storage st) period pl.

(** *** The cache path: [main.launch_file_synchronizer] and
    [MetadataCache._ensure_cache_file_exists] *)

(** [if not os.path.isabs(path_cache): path_cache = os.path.join(project_root, path_cache)] *)
Definition launch_cache_path (main_root path_cache : string) : string :=
  if negb (isabs path_cache) then path_join main_root path_cache else path_cache.

(** [_ensure_cache_file_exists]: the path the cache keeps. *)
Definition ensure_cache_file_exists (package_root cache : string) : string :=
  if ends_with ".json" cache then cache
  else path_join package_root "metadata_local_cache.json".

(** ** utils/utils.py: [to_unix_timestamp] *)

(** A [datetime] as [datetime.fromisoformat] returns it; [dt_utcoffset] is
    [None] for a naive value, else its offset from UTC in seconds. *)
Record datetime : Type := mkDatetime {
  dt_year : Z; dt_month : Z; dt_day : Z;
  dt_hour : Z; dt_minute : Z; dt_second : Z; dt_microsecond : Z;
  dt_utcoffset : option Z
}.

(** The proleptic Gregorian calendar of CPython's [datetime] module:
    [_is_leap], [_days_before_year], [_days_in_month],
    [_days_before_month] and [_ymd2ord]. *)
Definition is_leap (year : Z) : bool :=
  (year mod 4 =? 0) && (negb (year mod 100 =? 0) || (year mod 400 =? 0)).

Definition days_before_year (year : Z) : Z :=
  let y := year - 1 in y * 365 + y / 4 - y / 100 + y / 400.

Definition DAYS_BEFORE_MONTH : list Z := [-1; 0; 31; 59; 90; 120; 151; 181; 212; 243; 273; 304; 334].


Definition days_before_month (year month : Z) : Z :=
  nth (Z.to_nat month) DAYS_BEFORE_MONTH 0
  + (if (month >? 2) && is_leap year then 1 else 0).

Definition ymd2ord (year month day : Z) : Z :=
  days_before_year year + days_before_month year month + day.


(** Whole seconds from [1970-01-01T00:00:00] to the wall-clock fields. *)
Definition wall_seconds (dt : datetime) : Z :=
  (ymd2ord (dt_year dt) (dt_month dt) (dt_day dt) - ymd2ord 1970 1 1) * 86400
  + dt_hour dt * 3600 + dt_minute dt * 60 + dt_second dt.

(** [a / b] for integers [a >= 0], [b > 0], rounded to the nearest
    integer, ties to even. *)
Definition round_ne (a b : Z) : Z :=
  let q := a / b in
  let r := a mod b in
  if 2 * r <? b then q
  else if b <? 2 * r then q + 1
  else if Z.even q then q else q + 1.

(** [int(N / D)] for Python ints [N] and [D > 0]: the true division is
    correctly rounded to a binary64 float (53-bit significand, ties to
    even), and [int] truncates the float toward zero.  [L] is the exponent
    of the leading bit of [|N| / D] (exact for [|N| / D >= 2**-64]), the
    float's last bit has weight [2**(L - 52)]. *)
Definition float_trunc_div (N D : Z) : Z :=
  let a := Z.abs N in
  if a =? 0 then 0 else
  let L := Z.log2 (a * 2 ^ 64 / D) - 64 in
  let e := L - 52 in
  let t := if e <? 0 then round_ne (a * 2 ^ (- e)) D / 2 ^ (- e)
           else round_ne a (D * 2 ^ e) * 2 ^ e in
  Z.sgn N * t.

(** [int(x.timestamp())] for [x] the fields read at UTC offset [off]:
    [timestamp()] is [(x - _EPOCH).total_seconds()], the microsecond count
    divided by [10**6] as a float, and [int] truncates it. *)
Definition int_timestamp (dt : datetime) (off : Z) : Z :=
  float_trunc_div ((wall_seconds dt - off) * 1000000 + dt_microsecond dt) 1000000.

Section ToUnixTimestamp.

(** [datetime.fromisoformat]: [None] is the [ValueError] it raises. *)
Variable fromisoformat : string -> option datetime.
(** The offset [astimezone] assumes for a naive value: the system's local
    time zone at that moment. *)
Variable local_utcoffset : datetime -> Z.

(** [to_unix_timestamp(time_str, has_timezone)]: with [has_timezone] the
    value is converted to UTC ([astimezone], which reads a naive value as
    local time); without, [replace(tzinfo=timezone.utc)] relabels the
    wall-clock fields as UTC, dropping any offset. *)
Definition to_unix_timestamp (time_str : string) (has_timezone : bool) : option Z :=
  match fromisoformat time_str with
  | None => None
  | Some dt =>
      if has_timezone then
        Some (int_timestamp dt (match dt_utcoffset dt with
                                | Some off => off
                                | None => local_utcoffset dt
                                end))
      else Some (int_timestamp dt 0)
  end.

End ToUnixTimestamp.


(** ** sync/metadata_manager.py: [MetadataCache.get_mod_time] *)

(** [MetadataCache.get_mod_time]: [self._metadata.get(file_name)]. *)
Definition get_mod_time (n : string) : M (option Z) :=
  gets (fun s => dict_get (cache_md s) n).

(** * Properties *)

(** ** Dict lemmas *)

Lemma dict_get_set : forall d k v n,
  dict_get (dict_set d k v) n = if String.eqb n k then Some v else dict_get d n.
Proof.
  induction d as [|[k' v'] r IH]; intros k v n; simpl.
  - reflexivity.
  - destruct (String.eqb k k') eqn:Hk; simpl.
    + apply String.eqb_eq in Hk; subst k'. simpl.
      destruct (String.eqb n k); reflexivity.
    + simpl. destruct (String.eqb n k') eqn:Hn.
      * apply String.eqb_eq in Hn; subst n.
        destruct (String.eqb k' k) eqn:Hk'; [|reflexivity].
        apply String.eqb_eq in Hk'; subst. rewrite String.eqb_refl in Hk. discriminate.
      * apply IH.
Qed.

Lemma dict_get_pop_other : forall d k n,
  String.eqb n k = false -> dict_get (dict_pop d k) n = dict_get d n.
Proof.
  induction d as [|[k' v'] r IH]; intros k n Hnk; simpl.
  - reflexivity.
  - destruct (String.eqb k k') eqn:Hk; simpl.
    + apply String.eqb_eq in Hk; subst k'. rewrite Hnk. reflexivity.
    + rewrite IH by exact Hnk. reflexivity.
Qed.


(** ** Snapshot values *)

Lemma local_info_step_values : forall sync acc le s d s',
  local_info_step sync acc le s = (Ok d, s') ->
  forall n v, dict_get d n = Some v ->
  dict_get acc n = Some v \/ (n = le_name le /\ v = le_mtime le + sync).
Proof.
  intros sync acc le s d s' H n v Hg.
  unfold local_info_step in H.
  destruct (le_isfile le && negb (String.prefix "~" (le_name le))).
  - unfold try_catch, bind, get_file_time_modified in H.
    destruct (le_stat_err le) as [e|].
    + destruct (is_oserror e) eqn:E; simpl in H.
      * unfold raise in H. discriminate.
      * rewrite E in H. unfold raise in H. discriminate.
    + simpl in H. inversion H; subst.
      rewrite dict_get_set in Hg. unfold get_time_correlation in Hg.
      destruct (String.eqb n (le_name le)) eqn:Hn.
      * apply String.eqb_eq in Hn. inversion Hg. auto.
      * auto.
  - inversion H; subst; auto.
Qed.

Lemma fold_local_info_values : forall es sync acc s d s',
  fold_m (local_info_step sync) acc es s = (Ok d, s') ->
  forall n v, dict_get d n = Some v ->
  dict_get acc n = Some v \/
  exists le, In le es /\ n = le_name le /\ v = le_mtime le + sync.
Proof.
  induction es as [|le r IH]; intros sync acc s d s' H n v Hg; simpl in H.
  - inversion H; subst; auto.
  - unfold bind in H.
    destruct (local_info_step sync acc le s) as [[acc'|e] s1] eqn:Hs; [|discriminate].
    destruct (IH _ _ _ _ _ H n v Hg) as [Ha | [le' [Hin Hle]]].
    + destruct (local_info_step_values _ _ _ _ _ _ Hs n v Ha) as [Hb | Hb]; auto.
      right. exists le. simpl. auto.
    + right. exists le'. simpl. auto.
Qed.

(** Every entry of the local snapshot is a listed file's modification time
    plus the offset. *)
Lemma local_get_info_values : forall s d s',
  local_get_info s = (Ok d, s') ->
  forall n v, dict_get d n = Some v ->
  exists es le, ldir s = Some es /\ In le es /\ n = le_name le /\
                v = le_mtime le + sync_time s.
Proof.
  intros s d s' H n v Hg. unfold local_get_info, try_catch in H.
  destruct (ldir s) as [es|]; [|discriminate].
  destruct (fold_m (local_info_step (sync_time s)) [] es s) as [[d'|e] s1] eqn:Hf.
  - inversion H; subst.
    destruct (fold_local_info_values _ _ _ _ _ _ Hf n v Hg) as [Hn | [le Hle]].
    + discriminate.
    + exists es, le. tauto.
  - destruct (is_oserror e); discriminate.
Qed.

Lemma fold_cloud_info_values : forall items acc n v,
  dict_get (fold_left cloud_info_step items acc) n = Some v ->
  dict_get acc n = Some v \/
  exists it, In it items /\ n = re_name it /\ re_isfile it = true /\ v = re_modified it.
Proof.
  induction items as [|it r IH]; intros acc n v Hg; simpl in Hg.
  - auto.
  - destruct (IH _ _ _ Hg) as [Ha | [it' Hit]].
    + unfold cloud_info_step in Ha.
      destruct (String.prefix "~" (re_name it) || negb (re_isfile it)) eqn:Hc; auto.
      rewrite dict_get_set in Ha.
      destruct (String.eqb n (re_name it)) eqn:Hn; auto.
      apply String.eqb_eq in Hn. inversion Ha; subst.
      apply orb_false_iff in Hc. destruct Hc as [_ Hf].
      apply negb_false_iff in Hf.
      right. exists it. simpl. auto.
    + right. exists it'. simpl. tauto.
Qed.

(** Every entry of the remote snapshot is a listed file's [modified]
    stamp, with no offset. *)
Lemma cloud_get_info_values : forall s d s',
  cloud_get_info s = (Ok d, s') ->
  forall n v, dict_get d n = Some v ->
  exists items it, rdir s = Some items /\ In it items /\ n = re_name it /\
                   re_isfile it = true /\ v = re_modified it.
Proof.
  intros s d s' H n v Hg.
  unfold cloud_get_info, try_catch, bind, get_info_backup_folder in H.
  destruct (network s) eqn:Hnet.
  - destruct (rdir s) as [items|] eqn:Hr.
    + inversion H; subst.
      destruct (fold_cloud_info_values _ _ _ _ Hg) as [Hn | [it Hit]].
      * discriminate.
      * exists items, it. tauto.
    + simpl in H. unfold bind, create_backup_folder in H.
      rewrite Hnet, Hr in H. discriminate.
  - simpl in H. discriminate.
  - simpl in H. discriminate.
Qed.

(** ** Never raising: [synchronize_data] handles every exception *)

Lemma synchronize_data_returns_ok : forall fuel first s r s',
  synchronize_data fuel first s = Some (r, s') -> r = Ok tt.
Proof.
  induction fuel as [|fuel IH]; intros first s r s' H; simpl in H;
  destruct (synchronize_body first s) as [[u|e] s1];
  try (inversion H; reflexivity);
  destruct (is_connection_error e); try (inversion H; reflexivity);
  destruct (is_unauthorized e); try (inversion H; reflexivity);
  destruct (is_oserror e || is_disk_not_found e); try (inversion H; reflexivity).
  eapply IH. exact H.
Qed.

(** ** Concrete states *)

Definition file (n : string) (t : Z) : lentry := mkLentry n true t None.

(** A local folder where reading [a.txt]'s modification time fails, next to
    a new file [b.txt]; the cache knows another file. *)
Definition s_stat_fail : state :=
  mkState (Some [mkLentry "a.txt" true 100 (Some PermissionError); file "b.txt" 200])
    (Some []) NetOk [] 1000 1000 0 [] [] [("c.txt"%string, 50)] false [].

Definition s_stat_ok : state :=
  mkState (Some [file "b.txt" 200])
    (Some []) NetOk [] 1000 1000 0 [] [] [("c.txt"%string, 50)] false [].

(** The sample scenario: [a.txt] and [b.txt], empty cache, empty remote
    folder, offset [d], local clock [c], remote clock [sv]. *)
Definition s_sample (d c sv : Z) : state :=
  mkState (Some [file "a.txt" 100; file "b.txt" 200]) (Some []) NetOk [] c sv d
    [] [] [] false [].

(** A remote folder with one file stamped [100], offset [5]. *)
Definition s_remote_stamp : state :=
  mkState (Some [file "l.txt" 40]) (Some [mkRentry "r.txt" true 100]) NetOk [] 0 0 5
    [] [] [] false [].

(** The local folder is missing. *)
Definition s_no_local_dir : state :=
  mkState None (Some []) NetOk [] 0 0 0 [] [] [] false [].

(** Empty local snapshot, the cache still knows [a.txt], which the remote
    folder holds. *)
Definition s_cached_remote_only : state :=
  mkState (Some []) (Some [mkRentry "a.txt" true 10]) NetOk [] 0 0 0
    [] [] [("a.txt"%string, 10)] false [].

(** ** C2 *)

(** C2, counterexample: the remote snapshot records the remote stamp [100]
    itself, not [100 + 5] with the offset [5]. *)
Lemma remote_snapshot_without_offset :
  sync_time s_remote_stamp = 5 /\
  fst (cloud_get_info s_remote_stamp) = Ok [("r.txt"%string, 100)] /\
  100 <> 100 + sync_time s_remote_stamp.
Proof. split; [reflexivity | split; [reflexivity | discriminate]]. Qed.

(** C2 (amended): every entry of the local snapshot is the listed file's
    modification time (whole seconds) plus the offset; every entry of the
    remote snapshot is the remote item's [modified] stamp, with no offset. *)
Theorem snapshot_times : forall s,
  (forall d s' n v, local_get_info s = (Ok d, s') -> dict_get d n = Some v ->
     exists es le, ldir s = Some es /\ In le es /\ le_name le = n /\
                   v = le_mtime le + sync_time s) /\
  (forall d s' n v, cloud_get_info s = (Ok d, s') -> dict_get d n = Some v ->
     exists items it, rdir s = Some items /\ In it items /\ re_name it = n /\
                      re_isfile it = true /\ v = re_modified it).
Proof.
  intro s. split.
  - intros d s' n v H Hg.
    destruct (local_get_info_values s d s' H n v Hg) as [es [le [H1 [H2 [H3 H4]]]]].
    exists es, le. auto.
  - intros d s' n v H Hg.
    destruct (cloud_get_info_values s d s' H n v Hg) as [items [it [H1 [H2 [H3 H4]]]]].
    exists items, it. auto.
Qed.

Lemma snapshot_times_witness :
  (exists es le, ldir s_remote_stamp = Some es /\ In le es /\ le_name le = "l.txt"%string /\
                 45 = le_mtime le + sync_time s_remote_stamp) /\
  (exists items it, rdir s_remote_stamp = Some items /\ In it items /\
                    re_name it = "r.txt"%string /\ re_isfile it = true /\ 100 = re_modified it).
Proof.
  split.
  - apply (proj1 (snapshot_times s_remote_stamp) [("l.txt"%string, 45)] s_remote_stamp);
      reflexivity.
  - apply (proj2 (snapshot_times s_remote_stamp) [("r.txt"%string, 100)] s_remote_stamp);
      reflexivity.
Defined.

(** ** C3 *)

(** C3: reading [a.txt]'s modification time fails; [_get_file_time_modified]
    logs it and returns [None], [ceil(None)] raises [TypeError], which the
    per-file handlers of [get_info] do not catch: the listing and the whole
    pass stop there, and the new file [b.txt] is not uploaded, which it is
    when [a.txt] is absent. *)
Theorem stat_error_aborts_pass :
  fst (local_get_info s_stat_fail) = Exc TypeError /\
  match synchronize_data 0 false s_stat_fail with
  | Some (_, s') => log s' = [ELogError PermissionError; ELogError TypeError] /\
                    cache_md s' = cache_md s_stat_fail
  | None => False
  end /\
  match synchronize_data 0 false s_stat_ok with
  | Some (_, s') => In (ECall (CLoad "b.txt")) (log s')
  | None => False
  end.
Proof. vm_compute. split; [reflexivity | split; [split; reflexivity | ]]. tauto. Qed.

(** ** C4 *)

(** C4, counterexample: with offset [0] and the clock at [1000], the cache
    after the first pass holds the upload time for both files, not their
    modification times. *)
Lemma sample_cache_holds_transfer_time :
  match synchronize_data 0 true (s_sample 0 1000 1000) with
  | Some (_, s') => cache_md s' = [("a.txt"%string, 1000); ("b.txt"%string, 1000)] /\
                    cache_md s' <> [("a.txt"%string, 100 + 0); ("b.txt"%string, 200 + 0)]
  | None => False
  end.
Proof. vm_compute. split; [reflexivity | discriminate]. Qed.

(** ** C7 *)

(** C7: when the pass body fails with an [OSError] (other than a connection
    error, which has its own handler) or a [DiskNotFoundError], the error is
    logged and [synchronize_data] calls itself once with
    [is_first_launch=True] from the state reached; no exception leaves it. *)
Theorem synchronize_data_restarts_first_launch : forall fuel first s e s',
  synchronize_body first s = (Exc e, s') ->
  is_connection_error e = false ->
  is_oserror e || is_disk_not_found e = true ->
  synchronize_data (S fuel) first s = synchronize_data fuel true (emit (ELogError e) s') /\
  (forall r s2, synchronize_data (S fuel) first s = Some (r, s2) -> r = Ok tt).
Proof.
  intros fuel first s e s' Hb Hc Ho. split.
  - simpl. rewrite Hb, Hc. destruct (is_unauthorized e) eqn:Hu.
    + destruct e; discriminate.
    + rewrite Ho. reflexivity.
  - intros r s2 H. exact (synchronize_data_returns_ok _ _ _ _ _ H).
Qed.

Lemma synchronize_data_restarts_first_launch_witness :
  synchronize_body false s_no_local_dir = (Exc OSError, set_ldir (Some []) s_no_local_dir) /\
  synchronize_data 1 false s_no_local_dir =
    synchronize_data 0 true (emit (ELogError OSError) (set_ldir (Some []) s_no_local_dir)).
Proof.
  split; [reflexivity|].
  apply (proj1 (synchronize_data_restarts_first_launch 0 false s_no_local_dir OSError
                  (set_ldir (Some []) s_no_local_dir) eq_refl eq_refl eq_refl)).
Defined.

(** ** C8 *)

(** C8: a cache file that is not valid UTF-8 (the single byte [0xFF])
    makes [json.load] raise [UnicodeDecodeError], which is neither an
    [IOError] nor a [JSONDecodeError]: constructing the cache raises,
    whatever the JSON parser. *)
Theorem metadata_cache_init_non_utf8 : forall json_loads,
  metadata_cache_init json_loads (fun _ => CFBytes [Byte.xff]) "metadata_cache.json"
  = Exc UnicodeDecodeError.
Proof. intro json_loads. reflexivity. Qed.

(** ** C9 *)

(** C9: in a first-launch call whose [storage_info] is the local snapshot
    and is empty, the cache is replaced by an empty dict and dumped before
    the loop, which then has no entry to visit. *)
Theorem delete_in_storage_clears_cache : forall m s,
  local_info s = [] ->
  delete_in_storage m RLocal true s =
  (Ok tt, emit ECacheClear (set_alias false (set_cache_md [] s))).
Proof.
  intros m s H. unfold delete_in_storage, bind, gets. simpl.
  rewrite H. simpl. unfold bind, delete_data_cache, modify. simpl.
  reflexivity.
Qed.

Lemma delete_in_storage_clears_cache_witness :
  local_info s_cached_remote_only = [] /\
  delete_in_storage MCloud RLocal true s_cached_remote_only =
  (Ok tt, emit ECacheClear (set_alias false (set_cache_md [] s_cached_remote_only))).
Proof.
  split; [reflexivity|].
  apply delete_in_storage_clears_cache. reflexivity.
Defined.

(** ** C10 *)

(** C10: a failed NTP request gives the offset [0] (logged, not raised),
    start-up goes on to the first pass with that offset, and every
    corrected time is then the raw time. *)
Theorem ntp_failure_zero_offset : forall (e : exc) (s : state),
  fst (get_ntp_time (Exc e) (now s)) = 0 /\
  sync_time (launch_init (Exc e) s) = 0 /\
  (forall fuel, launch_file_synchronizer fuel (Exc e) s =
                synchronize_data fuel true (launch_init (Exc e) s)) /\
  (forall t, get_time_correlation t (sync_time (launch_init (Exc e) s)) = t).
Proof.
  intros e s. unfold launch_init, get_ntp_time, create_backup_folder. simpl.
  split; [reflexivity|]. split.
  - destruct (network s), (rdir s); reflexivity.
  - split; [reflexivity|].
    intro t. unfold get_time_correlation.
    destruct (network s), (rdir s); simpl; lia.
Qed.

(** ** Manager calls leave the engine's dicts alone *)

Definition engine_same (s s' : state) : Prop :=
  local_info s' = local_info s /\ cloud_info s' = cloud_info s /\
  cache_md s' = cache_md s /\ alias s' = alias s /\
  sync_time s' = sync_time s /\ now s' = now s.

Ltac solve_engine_same H :=
  repeat (simpl in H; unfold raise, ret, bind, try_catch, log_error, modify in H;
          match type of H with
          | context [match ?x with _ => _ end] => destruct x
          end);
  inversion H; subst; unfold engine_same; simpl; tauto.

Lemma engine_same_refl : forall s, engine_same s s.
Proof. intro s. unfold engine_same. tauto. Qed.

Lemma engine_same_trans : forall s1 s2 s3,
  engine_same s1 s2 -> engine_same s2 s3 -> engine_same s1 s3.
Proof.
  unfold engine_same. intros s1 s2 s3 H1 H2.
  destruct H1 as [? [? [? [? [? ?]]]]], H2 as [? [? [? [? [? ?]]]]].
  repeat split; congruence.
Qed.

Lemma cloud_get_info_engine_same : forall s r s',
  cloud_get_info s = (r, s') -> engine_same s s'.
Proof.
  intros s r s' H.
  unfold cloud_get_info, try_catch, bind, get_info_backup_folder in H.
  destruct (network s) eqn:Hn; [destruct (rdir s) eqn:Hr|..]; simpl in H;
    try (inversion H; subst; apply engine_same_refl).
  unfold bind, create_backup_folder in H. rewrite Hn, Hr in H.
  inversion H; subst. unfold engine_same. simpl. tauto.
Qed.

Lemma run_call_engine_same : forall c s r s',
  run_call c s = (r, s') -> engine_same s s'.
Proof.
  intros c s r s' H. unfold run_call in H.
  destruct c as [n|n|n|n|n|n].
  - unfold cloud_load in H. simpl in H. solve_engine_same H.
  - unfold cloud_load in H. simpl in H. solve_engine_same H.
  - unfold cloud_download in H. simpl in H. solve_engine_same H.
  - unfold cloud_download in H. simpl in H. solve_engine_same H.
  - unfold local_delete in H. simpl in H. solve_engine_same H.
  - unfold cloud_delete, try_catch, bind in H.
    destruct (cloud_get_info (emit (ECall (CDeleteRemote n)) s)) as [[info|e] s1] eqn:Hg;
      apply cloud_get_info_engine_same in Hg;
      apply (engine_same_trans s (emit (ECall (CDeleteRemote n)) s)); 
      try (unfold engine_same; simpl; tauto);
      apply (engine_same_trans _ s1); auto.
    + destruct (negb (dict_mem info n)); [inversion H; subst; apply engine_same_refl|].
      destruct (faulty (CDeleteRemote n) s1); [|destruct (rdir s1)];
        inversion H; subst; unfold engine_same; simpl; tauto.
    + destruct (is_key_error e); [|destruct (is_connection_error e)];
        unfold log_error, modify, raise in H;
        inversion H; subst; unfold engine_same; simpl; tauto.
Qed.

Lemma delete_file_cache_ok : forall n s, fst (delete_file_cache n s) = Ok tt.
Proof. intros n s. unfold delete_file_cache. destruct (dict_mem (cache_md s) n); reflexivity. Qed.

Lemma delete_data_ok : forall n r s, exists s', delete_data n r s = (Ok tt, s').
Proof.
  intros n r s. unfold delete_data.
  destruct (delete_file_cache n _) as [r' s'] eqn:H.
  exists s'. pose proof (delete_file_cache_ok n
    (if dict_mem (get_ref r s) n then put_ref r (dict_pop (get_ref r s) n) s else s)) as Hok.
  rewrite H in Hok. simpl in Hok. subst r'. reflexivity.
Qed.

(** ** C1 *)

(** [a.txt] exists locally and is cached, but the remote snapshot of a
    non-first pass (left empty) lacks it. *)
Definition s_remote_snapshot_lacks : state :=
  mkState (Some [file "a.txt" 100]) (Some []) NetOk [] 1000 1000 0
    [] [] [("a.txt"%string, 100)] false [].

(** [a.txt] is cached and on the remote, but gone locally. *)
Definition s_local_gone : state :=
  mkState (Some []) (Some [mkRentry "a.txt" true 10]) NetOk [] 1000 1000 0
    [] [] [("a.txt"%string, 100)] false [].

(** C1, counterexample: a cached name missing from the remote snapshot of a
    non-first pass is neither deleted locally nor re-uploaded; a cached name
    missing from the local snapshot is deleted on the remote and dropped from
    the cache, with no upload. *)
Lemma non_first_pass_deletes_remotely :
  match synchronize_data 0 false s_remote_snapshot_lacks with
  | Some (_, s') => dict_mem (cache_md s_remote_snapshot_lacks) "a.txt" = true /\
                    dict_mem (cloud_info s_remote_snapshot_lacks) "a.txt" = false /\
                    log s' = []
  | None => False
  end /\
  match synchronize_data 0 false s_local_gone with
  | Some (_, s') => log s' = [ECall (CDeleteRemote "a.txt"); ECacheDel "a.txt"] /\
                    rdir s' = Some [] /\ cache_md s' = []
  | None => False
  end.
Proof. vm_compute. split; repeat split; reflexivity. Qed.

(** C1 (amended): in a non-first pass the deletion step is
    [_delete_in_storage(manager_cloud, local_info, False)].  It clears
    nothing and walks every cached name, [list(self._cache.metadata)], with
    the local snapshot as [storage_info].  A cached name present in the
    local snapshot (in particular one only missing from the remote snapshot)
    is left alone: the item changes nothing.  For a cached name absent from
    the local snapshot it calls the remote delete; when that returns, the
    re-upload does nothing (the name is still cached) and [_delete_data]
    drops the name from the other snapshot and the cache; a
    [FileNotFoundError] drops the cache entry only; any other error is
    logged. *)
Theorem non_first_pass_deletion_item : forall s,
  delete_in_storage MCloud RLocal false s =
  iter_m (delete_in_storage_item MCloud RLocal
            (if dict_eqb (local_info s) (cloud_info s) then RLocal else RCloud) false)
         (dict_keys (cache_md s)) s /\
  (forall other n, dict_mem (local_info s) n = true ->
     delete_in_storage_item MCloud RLocal other false n s = (Ok tt, s)) /\
  (forall other n, dict_mem (cache_md s) n = true -> dict_mem (local_info s) n = false ->
     delete_in_storage_item MCloud RLocal other false n s =
     match manager_delete MCloud n s with
     | (Ok _, s1) => delete_data n other s1
     | (Exc e, s1) =>
         if is_file_not_found e then (log_error e ;; delete_file_cache n) s1
         else log_error e s1
     end).
Proof.
  intros s. split; [|split].
  - unfold delete_in_storage. cbv [bind gets ret]. rewrite andb_false_r.
    cbv beta iota zeta. reflexivity.
  - intros other n Hl.
    unfold delete_in_storage_item, try_catch, bind, gets. unfold get_ref.
    rewrite Hl. cbn [negb andb]. unfold ret. cbv beta iota.
    rewrite Hl. reflexivity.
  - intros other n Hc Hl.
    unfold delete_in_storage_item, try_catch, bind, gets. unfold get_ref at 1.
    rewrite Hl. cbn [negb andb].
    destruct (manager_delete MCloud n s) as [[u|e] s1] eqn:Hd.
    + assert (Hs : engine_same s s1) by (exact (run_call_engine_same _ _ _ _ Hd)).
      destruct Hs as [_ [_ [Hcache _]]].
      unfold transfer_to_storage, try_catch, bind, gets. rewrite Hcache, Hc. simpl.
      destruct (delete_data_ok n other s1) as [s2 Hdd]. rewrite Hdd.
      rewrite andb_false_r. reflexivity.
    + destruct (is_file_not_found e).
      * unfold bind, log_error, modify.
        destruct (delete_file_cache n (emit (ELogError e) s1)) as [r2 s2] eqn:Hdf.
        pose proof (delete_file_cache_ok n (emit (ELogError e) s1)) as Hok.
        rewrite Hdf in Hok. simpl in Hok. subst r2.
        rewrite andb_false_r. reflexivity.
      * unfold log_error, modify. rewrite andb_false_r. reflexivity.
Qed.

(** [a.txt] is in the local snapshot and the cache, [b.txt] only in the
    cache, and the remote snapshot is empty. *)
Definition s_deletion_step : state :=
  mkState (Some [file "a.txt" 100]) (Some [mkRentry "b.txt" true 10]) NetOk [] 1000 1000 0
    [("a.txt"%string, 100)] [] [("a.txt"%string, 100); ("b.txt"%string, 100)] false [].

Lemma non_first_pass_deletion_item_witness :
  dict_mem (local_info s_deletion_step) "a.txt" = true /\
  delete_in_storage_item MCloud RLocal RCloud false "a.txt" s_deletion_step =
    (Ok tt, s_deletion_step) /\
  dict_mem (cache_md s_deletion_step) "b.txt" = true /\
  dict_mem (local_info s_deletion_step) "b.txt" = false /\
  delete_in_storage_item MCloud RLocal RCloud false "b.txt" s_deletion_step =
  match manager_delete MCloud "b.txt" s_deletion_step with
  | (Ok _, s1) => delete_data "b.txt" RCloud s1
  | (Exc e, s1) =>
      if is_file_not_found e then (log_error e ;; delete_file_cache "b.txt") s1
      else log_error e s1
  end.
Proof.
  split; [reflexivity|]. split.
  - apply (proj1 (proj2 (non_first_pass_deletion_item s_deletion_step))). reflexivity.
  - split; [reflexivity|]. split; [reflexivity|].
    apply (proj2 (proj2 (non_first_pass_deletion_item s_deletion_step))); reflexivity.
Defined.

(** ** C4 (amended) *)

(** C4 (amended): from [a.txt] (mtime 100) and [b.txt] (mtime 200), an
    empty cache and an empty remote folder, one first pass uploads both
    files (one [load] each), the remote folder then lists both, and the
    cache maps both to the corrected time of their upload,
    [ceil(time()) + offset], not to their modification times. *)
Theorem sample_first_pass : forall d c sv,
  exists s',
    synchronize_data 0 true (s_sample d c sv) = Some (Ok tt, s') /\
    cache_md s' = [("a.txt"%string, c + d); ("b.txt"%string, c + d)] /\
    rdir s' = Some [mkRentry "a.txt" true sv; mkRentry "b.txt" true sv] /\
    log s' = [ECacheSeed; ECall (CLoad "a.txt"); ECachePut "a.txt" (c + d);
              ECall (CLoad "b.txt"); ECachePut "b.txt" (c + d)].
Proof.
  intros d c sv.
  do 5 (cbv -[Z.add Z.ltb Z.eqb get_time_correlation];
        rewrite ?Z.ltb_irrefl, ?Z.eqb_refl).
  eexists. repeat split; reflexivity.
Qed.

(** ** Frames: what processing other names leaves alone *)



Definition is_reload_of (n : string) (e : event) : bool :=
  match e with ECall (CReload m) => String.eqb m n | _ => false end.


Definition count_ev (p : event -> bool) (l : list event) : nat := length (filter p l).

Definition rdir_some (s : state) : bool :=
  match rdir s with Some _ => true | None => false end.





























Lemma dict_mem_get : forall d n v, dict_get d n = Some v -> dict_mem d n = true.
Proof. intros d n v H. unfold dict_mem. rewrite H. reflexivity. Qed.




(** A pass where [a.txt] changed locally and the overwrite succeeds. *)
Definition s_reload_online : state :=
  mkState (Some [file "a.txt" 100; file "b.txt" 10]) (Some [mkRentry "a.txt" true 0]) NetOk []
    1000 1000 0 [("a.txt"%string, 100); ("b.txt"%string, 10)] []
    [("a.txt"%string, 0); ("b.txt"%string, 10)] false [].




(** ** Reconciled states: a second pass has nothing to do *)

Definition is_call (e : event) : bool := match e with ECall _ => true | _ => false end.

(** The loop of [ManagerLocalStorage.get_info] when no modification time
    fails to be read. *)
Definition local_snapshot_step (sync : Z) (acc : dict) (le : lentry) : dict :=
  if le_isfile le && negb (String.prefix "~" (le_name le))
  then dict_set acc (le_name le) (get_time_correlation (le_mtime le) sync)
  else acc.

Definition local_snapshot (sync : Z) (es : list lentry) : dict :=
  fold_left (local_snapshot_step sync) es [].

Lemma dict_mem_in : forall d k, dict_mem d k = true <-> In k (dict_keys d).
Proof.
  unfold dict_mem, dict_keys. induction d as [|[k' v'] r IH]; intros k; simpl.
  - split; [discriminate|tauto].
  - destruct (String.eqb k k') eqn:E.
    + apply String.eqb_eq in E. subst. tauto.
    + rewrite IH. split; [tauto|]. intros [H|H]; [|exact H].
      subst. rewrite String.eqb_refl in E. discriminate.
Qed.

Lemma dict_keys_set : forall d k v,
  dict_keys (dict_set d k v) = if dict_mem d k then dict_keys d else dict_keys d ++ [k].
Proof.
  unfold dict_mem, dict_keys. induction d as [|[k' v'] r IH]; intros k v; simpl.
  - reflexivity.
  - destruct (String.eqb k k') eqn:E; simpl; [reflexivity|].
    rewrite IH. destruct (dict_get r k); reflexivity.
Qed.

Lemma NoDup_snoc : forall (l : list string) k, NoDup l -> ~ In k l -> NoDup (l ++ [k]).
Proof.
  induction l as [|x r IH]; intros k Hnd Hk; simpl.
  - constructor; [tauto|constructor].
  - inversion Hnd; subst. constructor.
    + rewrite in_app_iff. simpl. intros [H|[H|[]]]; [tauto|]. subst. apply Hk. left. reflexivity.
    + apply IH; [assumption|]. intro H. apply Hk. right. exact H.
Qed.

Lemma dict_set_nodup : forall d k v, NoDup (dict_keys d) -> NoDup (dict_keys (dict_set d k v)).
Proof.
  intros d k v H. rewrite dict_keys_set. destruct (dict_mem d k) eqn:E; [exact H|].
  apply NoDup_snoc; [exact H|]. intro Hin. apply dict_mem_in in Hin. congruence.
Qed.

Lemma dict_mem_set : forall d k v n,
  dict_mem (dict_set d k v) n = if String.eqb n k then true else dict_mem d n.
Proof.
  intros d k v n. unfold dict_mem at 1. rewrite dict_get_set.
  destruct (String.eqb n k); reflexivity.
Qed.

Lemma dict_pop_keys_incl : forall d k x, In x (dict_keys (dict_pop d k)) -> In x (dict_keys d).
Proof.
  unfold dict_keys. induction d as [|[k' v'] r IH]; intros k x; simpl; [tauto|].
  destruct (String.eqb k k'); simpl; [tauto|]. intros [H|H]; [tauto|right; eapply IH; exact H].
Qed.

Lemma dict_pop_nodup : forall d k, NoDup (dict_keys d) -> NoDup (dict_keys (dict_pop d k)).
Proof.
  induction d as [|[k' v'] r IH]; intros k H; simpl; [constructor|].
  unfold dict_keys in H. simpl in H. inversion H; subst.
  destruct (String.eqb k k'); [assumption|].
  unfold dict_keys. simpl. constructor.
  - intro Hin. apply dict_pop_keys_incl in Hin. contradiction.
  - apply IH. assumption.
Qed.

Lemma dict_get_pop_self : forall d k, NoDup (dict_keys d) -> dict_get (dict_pop d k) k = None.
Proof.
  induction d as [|[k' v'] r IH]; intros k H; simpl; [reflexivity|].
  unfold dict_keys in H. simpl in H. inversion H; subst.
  destruct (String.eqb k k') eqn:E.
  - apply String.eqb_eq in E. subst k'.
    destruct (dict_get r k) eqn:G; [|reflexivity].
    exfalso. apply H2. apply dict_mem_in. unfold dict_mem. rewrite G. reflexivity.
  - simpl. rewrite E. apply IH. assumption.
Qed.

Lemma dict_get_in : forall d k v, NoDup (dict_keys d) -> In (k, v) d -> dict_get d k = Some v.
Proof.
  induction d as [|[k' v'] r IH]; intros k v H Hin; simpl; [destruct Hin|].
  unfold dict_keys in H. simpl in H. inversion H; subst.
  destruct Hin as [E|Hin].
  - inversion E; subst. rewrite String.eqb_refl. reflexivity.
  - destruct (String.eqb k k') eqn:E.
    + apply String.eqb_eq in E. subst k'. exfalso. apply H2.
      exact (in_map fst r (k, v) Hin).
    + apply IH; assumption.
Qed.

Lemma local_info_step_clean : forall sync acc le s,
  le_stat_err le = None ->
  local_info_step sync acc le s = (Ok (local_snapshot_step sync acc le), s).
Proof.
  intros sync acc le s H. unfold local_info_step, local_snapshot_step, get_file_time_modified.
  rewrite H. destruct (le_isfile le && negb (String.prefix "~" (le_name le))); reflexivity.
Qed.

Lemma fold_local_clean : forall es sync acc s,
  Forall (fun le => le_stat_err le = None) es ->
  fold_m (local_info_step sync) acc es s = (Ok (fold_left (local_snapshot_step sync) es acc), s).
Proof.
  induction es as [|le r IH]; intros sync acc s H; simpl; [reflexivity|].
  inversion H; subst. unfold bind. rewrite local_info_step_clean by assumption.
  apply IH. assumption.
Qed.

Lemma local_get_info_clean : forall s es,
  ldir s = Some es -> Forall (fun le => le_stat_err le = None) es ->
  local_get_info s = (Ok (local_snapshot (sync_time s) es), s).
Proof.
  intros s es Hd H. unfold local_get_info. rewrite Hd. unfold try_catch.
  rewrite fold_local_clean by exact H. reflexivity.
Qed.

Lemma snapshot_fold_get : forall sync es acc n t,
  dict_get (fold_left (local_snapshot_step sync) es acc) n = Some t ->
  dict_get acc n = Some t \/
  exists le, In le es /\ le_name le = n /\ le_isfile le = true /\
             t = get_time_correlation (le_mtime le) sync.
Proof.
  intros sync. induction es as [|le r IH]; intros acc n t H; simpl in H; [left; exact H|].
  destruct (IH _ _ _ H) as [G|[le' [Hi Hrest]]].
  - unfold local_snapshot_step in G.
    destruct (le_isfile le && negb (String.prefix "~" (le_name le))) eqn:E; [|left; exact G].
    rewrite dict_get_set in G. destruct (String.eqb n (le_name le)) eqn:En; [|left; exact G].
    right. exists le. apply andb_prop in E as [Ef _]. apply String.eqb_eq in En.
    inversion G. repeat split; [left; reflexivity|symmetry; exact En|exact Ef].
  - right. exists le'. split; [right; exact Hi|exact Hrest].
Qed.

Lemma snapshot_fold_nodup : forall sync es acc,
  NoDup (dict_keys acc) -> NoDup (dict_keys (fold_left (local_snapshot_step sync) es acc)).
Proof.
  intros sync. induction es as [|le r IH]; intros acc H; simpl; [exact H|].
  apply IH. unfold local_snapshot_step.
  destruct (le_isfile le && negb (String.prefix "~" (le_name le))); [apply dict_set_nodup|]; exact H.
Qed.

Lemma find_lentry_unique : forall es le,
  NoDup (map le_name es) -> In le es -> find_lentry (le_name le) es = Some le.
Proof.
  induction es as [|e r IH]; intros le H Hin; [destruct Hin|].
  simpl in H. inversion H; subst. simpl.
  destruct (String.eqb (le_name le) (le_name e)) eqn:E.
  - apply String.eqb_eq in E. destruct Hin as [Hin|Hin]; [subst; reflexivity|].
    exfalso. apply H2. rewrite <- E. apply in_map. exact Hin.
  - destruct Hin as [Hin|Hin]; [subst; rewrite String.eqb_refl in E; discriminate|].
    apply IH; assumption.
Qed.

Lemma iter_m_inv : forall A (f : A -> M unit) (Q : list A -> state -> Prop),
  (forall x r s, Q (x :: r) s -> exists s', f x s = (Ok tt, s') /\ Q r s') ->
  forall l s, Q l s -> exists s', iter_m f l s = (Ok tt, s') /\ Q [] s'.
Proof.
  intros A f Q Hstep. induction l as [|x r IH]; intros s HQ; simpl.
  - exists s. split; [reflexivity|exact HQ].
  - destruct (Hstep x r s HQ) as [s1 [H1 HQ1]].
    unfold bind. rewrite H1. apply IH. exact HQ1.
Qed.

Lemma iter_m_fixed : forall A (f : A -> M unit) l s,
  (forall x, In x l -> f x s = (Ok tt, s)) -> iter_m f l s = (Ok tt, s).
Proof.
  intros A f. induction l as [|x r IH]; intros s H; simpl; [reflexivity|].
  unfold bind. rewrite (H x (or_introl eq_refl)). apply IH.
  intros y Hy. apply H. right. exact Hy.
Qed.

Lemma bind_ok : forall A B (m : M A) (k : A -> M B) s a s1,
  m s = (Ok a, s1) -> bind m k s = k a s1.
Proof. intros A B m k s a s1 H. unfold bind. rewrite H. reflexivity. Qed.

Lemma cloud_load_succeeds : forall c n s es items le,
  ldir s = Some es -> network s = NetOk -> rdir s = Some items -> faults s = [] ->
  find_lentry n es = Some le -> le_isfile le = true ->
  cloud_load c n s = (Ok tt, set_rdir (Some (remote_put n (server_now s) items)) s).
Proof.
  intros c n s es items le Hd Hn Hr Hf Hl Hi. unfold cloud_load, faulty.
  rewrite Hd, Hn, Hr, Hf, Hl, Hi. reflexivity.
Qed.

Lemma transfer_cached : forall n r func s,
  dict_mem (cache_md s) n = true -> transfer_to_storage n r func s = (Ok tt, s).
Proof.
  intros n r func s H. unfold transfer_to_storage, try_catch, bind, gets.
  rewrite H. reflexivity.
Qed.

Lemma transfer_new : forall n r func s s',
  dict_mem (cache_md s) n = false ->
  (run_call (func n) ;; update_data n r) s = (Ok tt, s') ->
  transfer_to_storage n r func s = (Ok tt, s').
Proof.
  intros n r func s s' H E. unfold transfer_to_storage, try_catch, gets.
  unfold bind at 1. rewrite H. cbn [negb]. rewrite E. reflexivity.
Qed.

Lemma reload_not_newer : forall n t r func s c,
  dict_get (cache_md s) n = Some c -> (c <? t) = false ->
  reload_to_storage n t r func s = (Ok tt, s).
Proof.
  intros n t r func s c H Hlt. unfold reload_to_storage, try_catch, bind, gets.
  rewrite H, Hlt. reflexivity.
Qed.

Lemma reload_newer : forall n t r func s c s',
  dict_get (cache_md s) n = Some c -> (c <? t) = true ->
  (run_call (func n) ;; update_data n r) s = (Ok tt, s') ->
  reload_to_storage n t r func s = (Ok tt, s').
Proof.
  intros n t r func s c s' H Hlt E. unfold reload_to_storage, try_catch, gets.
  unfold bind at 1. rewrite H, Hlt. rewrite E. reflexivity.
Qed.

(** A successful upload or overwrite of [n] followed by [_update_data]. *)
Lemma load_and_update : forall c n s es items le,
  (c = CLoad n \/ c = CReload n) ->
  ldir s = Some es -> network s = NetOk -> rdir s = Some items -> faults s = [] ->
  find_lentry n es = Some le -> le_isfile le = true ->
  exists s', (run_call c ;; update_data n RCloud) s = (Ok tt, s') /\
    ldir s' = ldir s /\ network s' = network s /\ rdir_some s' = true /\
    faults s' = faults s /\ now s' = now s /\ sync_time s' = sync_time s /\
    alias s' = alias s /\
    cache_md s' = dict_set (cache_md s) n (get_time_correlation (now s) (sync_time s)) /\
    local_info s' = (if alias s then cache_md s' else local_info s).
Proof.
  intros c n s es items le Hc Hd Hn Hr Hf Hl Hi.
  assert (Hrun : run_call c s = (Ok tt, set_rdir (Some (remote_put n (server_now s) items))
                                                 (emit (ECall c) s))).
  { destruct Hc; subst c; unfold run_call;
    apply (cloud_load_succeeds _ n (emit _ s) es items le); simpl; assumption. }
  eexists. split; [unfold bind; rewrite Hrun; reflexivity|].
  unfold update_data, update_file_cache, modify, put_cache, put_ref, get_ref.
  cbn [ldir rdir network faults now server_now sync_time local_info cloud_info cache_md
       alias log set_local_info set_cache_md set_cloud_info set_rdir emit].
  unfold rdir_some.
  destruct (alias s) eqn:Ha;
  cbn [ldir rdir network faults now server_now sync_time local_info cloud_info cache_md
       alias log set_local_info set_cache_md set_cloud_info set_rdir emit];
  rewrite ?Ha; repeat split; reflexivity.
Qed.

Definition up_inv (es : list lentry) (L : dict) (N D : Z) (rest : dict) (s : state) : Prop :=
  ldir s = Some es /\ network s = NetOk /\ rdir_some s = true /\ faults s = [] /\
  now s = N /\ sync_time s = D /\
  local_info s = (if alias s then cache_md s else L) /\
  (alias s = true -> forall n, dict_mem (cache_md s) n = true -> dict_mem L n = true) /\
  NoDup (dict_keys (cache_md s)) /\
  NoDup (dict_keys rest) /\ (forall k v, In (k, v) rest -> dict_get L k = Some v) /\
  (forall n t, dict_get L n = Some t ->
     In n (dict_keys rest) \/ exists v, dict_get (cache_md s) n = Some v /\ t <= v).

Lemma up_inv_unchanged : forall es L N D n t rest s c,
  up_inv es L N D ((n, t) :: rest) s ->
  dict_get (cache_md s) n = Some c -> t <= c -> up_inv es L N D rest s.
Proof.
  intros es L N D n t rest s c
    [H1 [H2 [H3 [H4 [H5 [H6 [H7 [H8 [H9 [H10 [H11 H12]]]]]]]]]]] Hc Ht.
  unfold dict_keys in H10. simpl in H10. apply NoDup_cons_iff in H10 as [Hn Hnd].
  unfold up_inv. repeat (split; [assumption|]). split.
  { intros k v Hin. apply H11. right. exact Hin. }
  intros k u Hk. destruct (H12 k u Hk) as [[E|Hin]|Hv]; [|left; exact Hin|right; exact Hv].
  simpl in E. subst k. right. exists c. split; [exact Hc|].
  rewrite (H11 n t (or_introl eq_refl)) in Hk. inversion Hk. subst. exact Ht.
Qed.

Lemma up_inv_updated : forall es L N D n t rest s s',
  up_inv es L N D ((n, t) :: rest) s -> t <= N + D ->
  ldir s' = ldir s -> network s' = network s -> rdir_some s' = true ->
  faults s' = faults s -> now s' = now s -> sync_time s' = sync_time s ->
  alias s' = alias s ->
  cache_md s' = dict_set (cache_md s) n (get_time_correlation (now s) (sync_time s)) ->
  local_info s' = (if alias s then cache_md s' else local_info s) ->
  up_inv es L N D rest s'.
Proof.
  intros es L N D n t rest s s'
    [H1 [H2 [H3 [H4 [H5 [H6 [H7 [H8 [H9 [H10 [H11 H12]]]]]]]]]]] Ht
    G1 G2 G3 G4 G5 G6 G7 G8 G9.
  unfold dict_keys in H10. simpl in H10. apply NoDup_cons_iff in H10 as [Hn Hnd].
  assert (HnL : dict_get L n = Some t) by exact (H11 n t (or_introl eq_refl)).
  unfold up_inv. rewrite G1, G2, G4, G5, G6, G7.
  repeat (split; [assumption|]). split.
  { rewrite G9, G8, H7. destruct (alias s); reflexivity. }
  split.
  { intros Ha k Hk. rewrite G8, dict_mem_set in Hk.
    destruct (String.eqb k n) eqn:E.
    - apply String.eqb_eq in E. subst. unfold dict_mem. rewrite HnL. reflexivity.
    - exact (H8 Ha k Hk). }
  split; [rewrite G8; apply dict_set_nodup; exact H9|].
  split; [exact Hnd|]. split.
  { intros k v Hin. apply H11. right. exact Hin. }
  intros k u Hk. rewrite G8, dict_get_set.
  destruct (String.eqb k n) eqn:E.
  - apply String.eqb_eq in E. subst k. right. eexists. split; [reflexivity|].
    rewrite HnL in Hk. inversion Hk. subst. unfold get_time_correlation. lia.
  - destruct (H12 k u Hk) as [[E'|Hin]|Hv]; [|left; exact Hin|right; exact Hv].
    simpl in E'. subst. rewrite String.eqb_refl in E. discriminate.
Qed.

Section UploadPhase.

Variables (es : list lentry) (L : dict) (N D : Z).

Hypothesis HL : forall n t, dict_get L n = Some t ->
  exists le, find_lentry n es = Some le /\ le_isfile le = true /\ t <= N + D.

Lemma up_step : forall n t rest s,
  up_inv es L N D ((n, t) :: rest) s ->
  exists s', (transfer_to_storage n RCloud CLoad ;; reload_to_storage n t RCloud CReload) s
             = (Ok tt, s') /\ up_inv es L N D rest s'.
Proof.
  intros n t rest s Hinv.
  pose proof Hinv as [H1 [H2 [H3 [H4 [H5 [H6 [_ [_ [_ [_ [H11 _]]]]]]]]]]].
  assert (HnL : dict_get L n = Some t) by exact (H11 n t (or_introl eq_refl)).
  destruct (HL n t HnL) as [le [Hle [Hfile Ht]]].
  unfold rdir_some in H3. destruct (rdir s) as [items|] eqn:Hr; [|discriminate].
  destruct (dict_get (cache_md s) n) as [c|] eqn:Hc.
  - rewrite (bind_ok _ _ _ _ s tt s) by (apply transfer_cached; exact (dict_mem_get _ _ _ Hc)).
    destruct (c <? t) eqn:Hlt.
    + destruct (load_and_update (CReload n) n s es items le (or_intror eq_refl) H1 H2 Hr H4 Hle Hfile)
        as [s' [E [G1 [G2 [G3 [G4 [G5 [G6 [G7 [G8 G9]]]]]]]]]].
      exists s'. split; [apply (reload_newer _ _ _ _ _ c); assumption|].
      exact (up_inv_updated _ _ _ _ _ _ _ _ _ Hinv Ht G1 G2 G3 G4 G5 G6 G7 G8 G9).
    + exists s. split; [exact (reload_not_newer _ _ _ _ _ c Hc Hlt)|].
      apply (up_inv_unchanged _ _ _ _ n t _ _ c Hinv Hc). apply Z.ltb_ge. exact Hlt.
  - destruct (load_and_update (CLoad n) n s es items le (or_introl eq_refl) H1 H2 Hr H4 Hle Hfile)
      as [s' [E [G1 [G2 [G3 [G4 [G5 [G6 [G7 [G8 G9]]]]]]]]]].
    assert (Hmem : dict_mem (cache_md s) n = false) by (unfold dict_mem; rewrite Hc; reflexivity).
    rewrite (bind_ok _ _ _ _ s tt s') by (apply transfer_new; assumption).
    exists s'. split.
    + apply (reload_not_newer _ _ _ _ _ (get_time_correlation (now s) (sync_time s))).
      * rewrite G8, dict_get_set, String.eqb_refl. reflexivity.
      * apply Z.ltb_ge. unfold get_time_correlation. rewrite H5, H6. exact Ht.
    + exact (up_inv_updated _ _ _ _ _ _ _ _ _ Hinv Ht G1 G2 G3 G4 G5 G6 G7 G8 G9).
Qed.

Lemma upload_phase : forall s,
  local_info s = L -> up_inv es L N D L s ->
  exists s', sync_files_change_locally s = (Ok tt, s') /\ up_inv es L N D [] s'.
Proof.
  intros s Hli Hinv.
  unfold sync_files_change_locally. rewrite (bind_ok _ _ _ _ s L s) by (unfold gets; rewrite Hli; reflexivity).
  destruct (iter_m_inv _ (fun kv => transfer_to_storage (fst kv) RCloud CLoad ;;
                                    reload_to_storage (fst kv) (snd kv) RCloud CReload)
              (up_inv es L N D)) with (l := L) (s := s) as [s' [E Hs']].
  - intros [n t] r s0 H. exact (up_step n t r s0 H).
  - exact Hinv.
  - exists s'. split; [|exact Hs']. unfold try_catch. rewrite E. reflexivity.
Qed.

End UploadPhase.

Lemma delete_item_skip : forall m r other n s,
  dict_mem (get_ref r s) n = true ->
  delete_in_storage_item m r other false n s = (Ok tt, s).
Proof.
  intros m r other n s H. unfold delete_in_storage_item, try_catch, bind, gets.
  rewrite H. cbn [negb andb]. unfold ret. cbv beta iota.
  rewrite H. reflexivity.
Qed.

Lemma cloud_get_info_ok : forall s items,
  network s = NetOk -> rdir s = Some items ->
  cloud_get_info s = (Ok (fold_left cloud_info_step items []), s).
Proof.
  intros s items Hn Hr. unfold cloud_get_info, try_catch, bind, get_info_backup_folder.
  rewrite Hn, Hr. reflexivity.
Qed.

Definition same_core (s s' : state) : Prop :=
  ldir s' = ldir s /\ network s' = network s /\ faults s' = faults s /\
  now s' = now s /\ sync_time s' = sync_time s /\ local_info s' = local_info s /\
  cache_md s' = cache_md s /\ alias s' = alias s /\ rdir_some s' = rdir_some s.

Lemma manager_delete_cloud_ok : forall n s,
  network s = NetOk -> rdir_some s = true -> faults s = [] ->
  exists s', manager_delete MCloud n s = (Ok tt, s') /\ same_core s s'.
Proof.
  intros n s Hn Hr Hf. unfold rdir_some in Hr.
  destruct (rdir s) as [items|] eqn:Er; [|discriminate].
  unfold manager_delete, run_call, cloud_delete.
  set (s1 := emit (ECall (CDeleteRemote n)) s).
  assert (Hs1 : cloud_get_info s1 = (Ok (fold_left cloud_info_step items []), s1)).
  { apply cloud_get_info_ok; simpl; assumption. }
  unfold try_catch at 1. rewrite (bind_ok _ _ _ _ _ _ _ Hs1).
  destruct (dict_mem (fold_left cloud_info_step items []) n); cbn [negb].
  - unfold faulty. replace (faults s1) with (faults s) by reflexivity. rewrite Hf.
    replace (rdir s1) with (rdir s) by reflexivity. rewrite Er. cbn [existsb].
    eexists. split; [reflexivity|].
    unfold same_core, rdir_some. simpl. rewrite Er. repeat split; reflexivity.
  - eexists. split; [reflexivity|].
    unfold same_core, rdir_some. simpl. rewrite Er. repeat split; reflexivity.
Qed.

Lemma delete_data_pop : forall n other s,
  alias s = false -> dict_mem (local_info s) n = false -> dict_mem (cache_md s) n = true ->
  exists s', delete_data n other s = (Ok tt, s') /\
    ldir s' = ldir s /\ network s' = network s /\ faults s' = faults s /\
    now s' = now s /\ sync_time s' = sync_time s /\ local_info s' = local_info s /\
    alias s' = alias s /\ rdir_some s' = rdir_some s /\
    cache_md s' = dict_pop (cache_md s) n.
Proof.
  intros n other s Ha Hl Hc. unfold delete_data, delete_file_cache, put_cache, get_ref, put_ref.
  destruct other.
  - rewrite Hl. cbv zeta iota. rewrite Hc, Ha.
    eexists. split; [reflexivity|].
    cbn [ldir rdir network faults now server_now sync_time local_info cloud_info cache_md
         alias log set_cache_md emit rdir_some].
    repeat split; first [reflexivity|assumption].
  - destruct (dict_mem (cloud_info s) n); cbv zeta iota;
    cbn [ldir rdir network faults now server_now sync_time local_info cloud_info cache_md
         alias log set_cloud_info];
    rewrite Hc, Ha; eexists; (split; [reflexivity|]);
    cbn [ldir rdir network faults now server_now sync_time local_info cloud_info cache_md
         alias log set_cache_md set_cloud_info emit rdir_some];
    repeat split; first [reflexivity|assumption].
Qed.

Lemma delete_item_remove : forall other n s,
  network s = NetOk -> rdir_some s = true -> faults s = [] -> alias s = false ->
  dict_mem (local_info s) n = false -> dict_mem (cache_md s) n = true ->
  exists s', delete_in_storage_item MCloud RLocal other false n s = (Ok tt, s') /\
    ldir s' = ldir s /\ network s' = network s /\ faults s' = faults s /\
    now s' = now s /\ sync_time s' = sync_time s /\ local_info s' = local_info s /\
    alias s' = alias s /\ rdir_some s' = rdir_some s /\
    cache_md s' = dict_pop (cache_md s) n.
Proof.
  intros other n s Hn Hr Hf Ha Hl Hc.
  destruct (manager_delete_cloud_ok n s Hn Hr Hf)
    as [s1 [E1 [C1 [C2 [C3 [C4 [C5 [C6 [C7 [C8 C9]]]]]]]]]].
  assert (E2 : transfer_to_storage n RLocal CLoad s1 = (Ok tt, s1)).
  { apply transfer_cached. rewrite C7. exact Hc. }
  destruct (delete_data_pop n other s1) as [s2 [E3 [D1 [D2 [D3 [D4 [D5 [D6 [D7 [D8 D9]]]]]]]]]];
    [rewrite C8; exact Ha|rewrite C6; exact Hl|rewrite C7; exact Hc|].
  assert (Hin : (manager_delete MCloud n ;; transfer_to_storage n RLocal CLoad ;; delete_data n other) s
                = (Ok tt, s2)).
  { rewrite (bind_ok _ _ _ _ _ _ _ E1), (bind_ok _ _ _ _ _ _ _ E2). exact E3. }
  exists s2. split.
  - unfold delete_in_storage_item. unfold try_catch at 1.
    unfold bind at 1, gets at 1. cbn [get_ref]. rewrite Hl. cbn [negb andb].
    unfold try_catch at 1.
    rewrite (bind_ok _ _ _ _ s tt s2) by (cbv beta; rewrite Hin; reflexivity).
    unfold bind, gets. cbn [get_ref]. rewrite D6, C6, Hl. reflexivity.
  - rewrite D1, D2, D3, D4, D5, D6, D7, D8, D9, C1, C2, C3, C4, C5, C6, C7, C8, C9.
    repeat split; reflexivity.
Qed.

Lemma dict_mem_pop_other : forall d k n,
  String.eqb k n = false -> dict_mem (dict_pop d n) k = dict_mem d k.
Proof. intros d k n H. unfold dict_mem. rewrite dict_get_pop_other by exact H. reflexivity. Qed.

Definition del_inv (es : list lentry) (L : dict) (D : Z) (rest : list string) (s : state) : Prop :=
  ldir s = Some es /\ sync_time s = D /\ network s = NetOk /\ rdir_some s = true /\
  faults s = [] /\
  local_info s = (if alias s then cache_md s else L) /\
  (alias s = true -> forall n, dict_mem (cache_md s) n = true -> dict_mem L n = true) /\
  NoDup (dict_keys (cache_md s)) /\ NoDup rest /\
  (forall n, In n rest -> dict_mem (cache_md s) n = true) /\
  (forall n t, dict_get L n = Some t -> exists v, dict_get (cache_md s) n = Some v /\ t <= v) /\
  (forall n, dict_mem (cache_md s) n = true -> dict_mem L n = true \/ In n rest).

Lemma del_inv_skip : forall es L D n r s,
  del_inv es L D (n :: r) s ->
  (alias s = true \/ dict_mem L n = true) -> del_inv es L D r s.
Proof.
  intros es L D n r s [H1 [H2 [H3 [H4 [H5 [H6 [H7 [H8 [H9 [H10 [H11 H12]]]]]]]]]]] Hc.
  apply NoDup_cons_iff in H9 as [Hn Hr].
  unfold del_inv. repeat (split; [assumption|]). split.
  { intros k Hk. apply H10. right. exact Hk. }
  split; [exact H11|].
  intros k Hk. destruct (alias s) eqn:Ha.
  - left. exact (H7 eq_refl k Hk).
  - destruct Hc as [Hc|Hc]; [discriminate|].
    destruct (H12 k Hk) as [G|[E|G]]; [left; exact G| |right; exact G].
    subst. left. exact Hc.
Qed.

Lemma del_step : forall es L D other n r s,
  del_inv es L D (n :: r) s ->
  exists s', delete_in_storage_item MCloud RLocal other false n s = (Ok tt, s') /\
             del_inv es L D r s'.
Proof.
  intros es L D other n r s Hinv.
  pose proof Hinv as [H1 [H2 [H3 [H4 [H5 [H6 [H7 [H8 [H9 [H10 [H11 H12]]]]]]]]]]].
  assert (Hcn : dict_mem (cache_md s) n = true) by (apply H10; left; reflexivity).
  destruct (alias s) eqn:Ha.
  - exists s. split.
    + apply delete_item_skip. simpl. rewrite H6. exact Hcn.
    + apply (del_inv_skip _ _ _ n); [exact Hinv|left; exact Ha].
  - destruct (dict_mem L n) eqn:HnL.
    + exists s. split.
      * apply delete_item_skip. simpl. rewrite H6. exact HnL.
      * apply (del_inv_skip _ _ _ n); [exact Hinv|right; exact HnL].
    + destruct (delete_item_remove other n s H3 H4 H5 Ha) as
        [s' [E [G1 [G2 [G3 [G4 [G5 [G6 [G7 [G8 G9]]]]]]]]]];
        [rewrite H6; exact HnL|exact Hcn|].
      exists s'. split; [exact E|].
      apply NoDup_cons_iff in H9 as [Hn Hr].
      unfold del_inv. rewrite G1, G2, G3, G5, G6, G7, G8, G9, Ha.
      split; [exact H1|]. split; [exact H2|]. split; [exact H3|]. split; [exact H4|].
      split; [exact H5|]. split; [rewrite H6; reflexivity|]. split; [discriminate|].
      split; [apply dict_pop_nodup; exact H8|]. split; [exact Hr|]. split.
      { intros k Hk. rewrite dict_mem_pop_other.
        - apply H10. right. exact Hk.
        - destruct (String.eqb k n) eqn:E'; [|reflexivity].
          apply String.eqb_eq in E'. subst. contradiction. }
      split.
      { intros k t Hk. rewrite dict_get_pop_other; [exact (H11 k t Hk)|].
        destruct (String.eqb k n) eqn:E'; [|reflexivity].
        apply String.eqb_eq in E'. subst. unfold dict_mem in HnL. rewrite Hk in HnL. discriminate. }
      intros k Hk. destruct (String.eqb k n) eqn:E'.
      * apply String.eqb_eq in E'. subst. unfold dict_mem in Hk.
        rewrite dict_get_pop_self in Hk by exact H8. discriminate.
      * rewrite dict_mem_pop_other in Hk by exact E'.
        destruct (H12 k Hk) as [G|[G|G]]; [left; exact G| |right; exact G].
        subst. rewrite String.eqb_refl in E'. discriminate.
Qed.

Lemma delete_in_storage_nonfirst : forall m r s s',
  (forall other, iter_m (delete_in_storage_item m r other false) (dict_keys (cache_md s)) s
                 = (Ok tt, s')) ->
  delete_in_storage m r false s = (Ok tt, s').
Proof.
  intros m r s s' H. unfold delete_in_storage.
  cbv [bind gets ret]. rewrite andb_false_r. cbv beta iota. rewrite H. reflexivity.
Qed.

Lemma delete_phase : forall es L D s,
  del_inv es L D (dict_keys (cache_md s)) s ->
  exists s', delete_in_storage MCloud RLocal false s = (Ok tt, s') /\ del_inv es L D [] s'.
Proof.
  intros es L D s Hinv.
  set (other := if dict_eqb (get_ref RLocal s) (cloud_info s) then RLocal else RCloud).
  destruct (iter_m_inv _ (delete_in_storage_item MCloud RLocal other false) (del_inv es L D))
    with (l := dict_keys (cache_md s)) (s := s) as [s' [E Hs']].
  - intros n r s0 H. exact (del_step es L D other n r s0 H).
  - exact Hinv.
  - exists s'. split; [|exact Hs']. unfold delete_in_storage.
    cbv [bind gets ret]. rewrite andb_false_r. cbv beta iota zeta. fold other. rewrite E. reflexivity.
Qed.

(** The state after the snapshot and the optional seeding of the cache. *)
Definition after_snapshot (L : dict) (s : state) : state :=
  let sa := set_local_info L (set_alias false s) in
  if dict_is_empty (cache_md s)
  then emit ECacheSeed (set_alias true (set_cache_md (local_info sa) sa))
  else sa.

Lemma synchronize_nonfirst_steps : forall fuel s L s2 s3,
  local_get_info s = (Ok L, s) ->
  sync_files_change_locally (after_snapshot L s) = (Ok tt, s2) ->
  delete_in_storage MCloud RLocal false s2 = (Ok tt, s3) ->
  synchronize_data fuel false s = Some (Ok tt, s3).
Proof.
  intros fuel s L s2 s3 H1 H2 H3.
  assert (Hb : synchronize_body false s = (Ok tt, s3)).
  { unfold synchronize_body. rewrite (bind_ok _ _ _ _ _ _ _ H1).
    unfold after_snapshot in H2.
    cbv [bind modify gets ret seed_cache_from_local_info].
    destruct (dict_is_empty (cache_md (set_local_info L (set_alias false s)))) eqn:E;
      simpl in E; rewrite E in H2; rewrite H2, H3; reflexivity. }
  destruct fuel; simpl; rewrite Hb; reflexivity.
Qed.

Definition reconciled (L cache : dict) : Prop :=
  (forall n t, dict_get L n = Some t -> exists v, dict_get cache n = Some v /\ t <= v) /\
  (forall n, dict_mem cache n = true -> dict_mem L n = true).

Lemma after_snapshot_fields : forall L s,
  ldir (after_snapshot L s) = ldir s /\ network (after_snapshot L s) = network s /\
  rdir (after_snapshot L s) = rdir s /\ faults (after_snapshot L s) = faults s /\
  now (after_snapshot L s) = now s /\ sync_time (after_snapshot L s) = sync_time s /\
  local_info (after_snapshot L s) = L /\
  cache_md (after_snapshot L s) = (if dict_is_empty (cache_md s) then L else cache_md s) /\
  alias (after_snapshot L s) = dict_is_empty (cache_md s) /\
  log (after_snapshot L s) = log s ++ (if dict_is_empty (cache_md s) then [ECacheSeed] else []).
Proof.
  intros L s. unfold after_snapshot.
  destruct (dict_is_empty (cache_md s)); simpl; rewrite ?app_nil_r; repeat split; reflexivity.
Qed.

(** A non-first pass from a reconciled cache changes nothing but the
    snapshot and makes no call. *)
Lemma pass_from_reconciled : forall fuel s es,
  ldir s = Some es -> Forall (fun le => le_stat_err le = None) es ->
  reconciled (local_snapshot (sync_time s) es) (cache_md s) ->
  exists s', synchronize_data fuel false s = Some (Ok tt, s') /\
    cache_md s' = cache_md s /\
    exists l, log s' = log s ++ l /\ forallb (fun e => negb (is_call e)) l = true.
Proof.
  intros fuel s es Hd Hst [Hv Hk].
  set (L := local_snapshot (sync_time s) es) in *.
  assert (HnL : NoDup (dict_keys L)) by (apply snapshot_fold_nodup; constructor).
  set (sb := after_snapshot L s).
  destruct (after_snapshot_fields L s) as [F1 [F2 [F3 [F4 [F5 [F6 [F7 [F8 [F9 F10]]]]]]]]].
  fold sb in F1, F2, F3, F4, F5, F6, F7, F8, F9, F10.
  assert (Hcb : cache_md sb = cache_md s).
  { rewrite F8. destruct (cache_md s) as [|[k v] r] eqn:Ec; [|reflexivity].
    cbn [dict_is_empty]. clearbody L.
    destruct L as [|[k v] r]; [reflexivity|].
    exfalso. destruct (Hv k v) as [u [Hu _]].
    - simpl. rewrite String.eqb_refl. reflexivity.
    - simpl in Hu. discriminate. }
  assert (E2 : sync_files_change_locally sb = (Ok tt, sb)).
  { unfold sync_files_change_locally. rewrite (bind_ok _ _ _ _ sb L sb) by (unfold gets; rewrite F7; reflexivity).
    unfold try_catch. rewrite iter_m_fixed; [reflexivity|].
    intros [n t] Hin. cbn [fst snd].
    destruct (Hv n t (dict_get_in _ _ _ HnL Hin)) as [v [Hc Htv]].
    rewrite <- Hcb in Hc.
    rewrite (bind_ok _ _ _ _ sb tt sb) by (apply transfer_cached; exact (dict_mem_get _ _ _ Hc)).
    apply (reload_not_newer _ _ _ _ _ v Hc). apply Z.ltb_ge. exact Htv. }
  assert (E3 : delete_in_storage MCloud RLocal false sb = (Ok tt, sb)).
  { apply delete_in_storage_nonfirst. intros other. apply iter_m_fixed.
    intros n Hin. apply delete_item_skip. simpl. rewrite F7.
    apply Hk. rewrite <- Hcb. apply dict_mem_in. exact Hin. }
  exists sb. split.
  - apply (synchronize_nonfirst_steps fuel s L sb sb); [|exact E2|exact E3].
    apply local_get_info_clean; assumption.
  - split; [exact Hcb|].
    exists (if dict_is_empty (cache_md s) then [ECacheSeed] else []). split; [exact F10|].
    destruct (dict_is_empty (cache_md s)); reflexivity.
Qed.

(** A fault-free non-first pass, with no local file dated after the clock,
    leaves a reconciled cache. *)
Lemma first_run_reconciles : forall fuel s es,
  ldir s = Some es -> NoDup (map le_name es) ->
  Forall (fun le => le_stat_err le = None /\ le_mtime le <= now s) es ->
  network s = NetOk -> rdir_some s = true -> faults s = [] ->
  NoDup (dict_keys (cache_md s)) ->
  exists s1, synchronize_data fuel false s = Some (Ok tt, s1) /\
    ldir s1 = Some es /\ sync_time s1 = sync_time s /\
    reconciled (local_snapshot (sync_time s) es) (cache_md s1).
Proof.
  intros fuel s es Hd Hnames Hall Hn Hr Hf Hnd.
  set (L := local_snapshot (sync_time s) es).
  assert (Hst : Forall (fun le => le_stat_err le = None) es).
  { eapply Forall_impl; [|exact Hall]. intros le [H _]. exact H. }
  assert (HnL : NoDup (dict_keys L)) by (apply snapshot_fold_nodup; constructor).
  assert (HL : forall n t, dict_get L n = Some t ->
             exists le, find_lentry n es = Some le /\ le_isfile le = true /\
                        t <= now s + sync_time s).
  { intros n t Ht. destruct (snapshot_fold_get _ _ _ _ _ Ht) as [G|[le [Hin [Hname [Hfile Hte]]]]];
      [discriminate|].
    exists le. rewrite <- Hname. split; [apply find_lentry_unique; assumption|].
    split; [exact Hfile|].
    rewrite Forall_forall in Hall. destruct (Hall le Hin) as [_ Hm].
    rewrite Hte. unfold get_time_correlation. lia. }
  set (sb := after_snapshot L s).
  destruct (after_snapshot_fields L s) as [F1 [F2 [F3 [F4 [F5 [F6 [F7 [F8 [F9 F10]]]]]]]]].
  fold sb in F1, F2, F3, F4, F5, F6, F7, F8, F9, F10.
  assert (Hup : up_inv es L (now s) (sync_time s) L sb).
  { unfold up_inv, rdir_some. rewrite F1, F2, F3, F4, F5, F6, F7, F8, F9.
    unfold rdir_some in Hr.
    split; [exact Hd|]. split; [exact Hn|]. split; [exact Hr|]. split; [exact Hf|].
    split; [reflexivity|]. split; [reflexivity|].
    split; [destruct (dict_is_empty (cache_md s)); reflexivity|].
    split.
    { intros Ha k Hk. rewrite Ha in Hk. exact Hk. }
    split; [destruct (dict_is_empty (cache_md s)); assumption|].
    split; [exact HnL|]. split.
    { intros k v Hin. apply dict_get_in; assumption. }
    intros k t Hk. left. apply dict_mem_in. exact (dict_mem_get _ _ _ Hk). }
  destruct (upload_phase es L (now s) (sync_time s) HL sb F7 Hup)
    as [s2 [E2 [G1 [G2 [G3 [G4 [_ [G6 [G7 [G8 [G9 [_ [_ G12]]]]]]]]]]]]].
  assert (Hdel : del_inv es L (sync_time s) (dict_keys (cache_md s2)) s2).
  { unfold del_inv.
    split; [exact G1|]. split; [exact G6|]. split; [exact G2|]. split; [exact G3|].
    split; [exact G4|]. split; [exact G7|]. split; [exact G8|].
    split; [exact G9|]. split; [exact G9|]. split.
    { intros k Hk. apply dict_mem_in. exact Hk. }
    split.
    { intros k t Hk. destruct (G12 k t Hk) as [[]|G]. exact G. }
    intros k Hk. right. apply dict_mem_in. exact Hk. }
  destruct (delete_phase es L (sync_time s) s2 Hdel)
    as [s3 [E3 [D1 [D2 [_ [_ [_ [_ [_ [_ [_ [_ [D11 D12]]]]]]]]]]]]].
  exists s3. split.
  - apply (synchronize_nonfirst_steps fuel s L s2 s3); [|exact E2|exact E3].
    apply local_get_info_clean; assumption.
  - split; [exact D1|]. split; [exact D2|]. split; [exact D11|].
    intros k Hk. destruct (D12 k Hk) as [G|[]]. exact G.
Qed.

(** C6, counterexample: [a.txt] carries a modification time ([2000]) later
    than the clock of both runs ([1000], then [1500]).  Nothing changes
    between the two non-first runs except the clock, yet the second run
    overwrites [a.txt] again and moves its cached value from [1000] to
    [1500]. *)
Definition s_future_file : state :=
  mkState (Some [file "a.txt" 2000]) (Some [mkRentry "a.txt" true 0]) NetOk [] 1000 1000 0
    [] [] [("a.txt"%string, 0)] false [].

Lemma second_pass_reuploads_future_file :
  match synchronize_data 0 false s_future_file with
  | Some (r1, s1) =>
      r1 = Ok tt /\ cache_md s1 = [("a.txt"%string, 1000)] /\
      count_ev (is_reload_of "a.txt") (log s1) = 1%nat /\
      match synchronize_data 0 false (set_now 1500 s1) with
      | Some (r2, s2) =>
          r2 = Ok tt /\ cache_md s2 = [("a.txt"%string, 1500)] /\
          count_ev (is_reload_of "a.txt") (log s2) = 2%nat
      | None => False
      end
  | None => False
  end.
Proof. vm_compute. repeat split; reflexivity. Qed.

(** C6 (amended): if the first non-first run finds the remote API reachable,
    the remote folder present, no transfer or deletion made to fail, every
    modification time readable and none later than the clock, then a second
    non-first run with nothing changed in between (only the clock may move)
    makes no upload, download, overwrite or delete call and leaves the cache
    unchanged. *)
Theorem second_pass_no_transfer : forall fuel s es N2,
  ldir s = Some es -> NoDup (map le_name es) ->
  Forall (fun le => le_stat_err le = None /\ le_mtime le <= now s) es ->
  network s = NetOk -> rdir_some s = true -> faults s = [] ->
  NoDup (dict_keys (cache_md s)) ->
  exists s1, synchronize_data fuel false s = Some (Ok tt, s1) /\
  exists s2, synchronize_data fuel false (set_now N2 s1) = Some (Ok tt, s2) /\
    cache_md s2 = cache_md s1 /\
    exists l, log s2 = log s1 ++ l /\ forallb (fun e => negb (is_call e)) l = true.
Proof.
  intros fuel s es N2 Hd Hnames Hall Hn Hr Hf Hnd.
  destruct (first_run_reconciles fuel s es Hd Hnames Hall Hn Hr Hf Hnd)
    as [s1 [E1 [Hd1 [Hs1 Hrec]]]].
  exists s1. split; [exact E1|].
  assert (Hst : Forall (fun le => le_stat_err le = None) es).
  { eapply Forall_impl; [|exact Hall]. intros le [H _]. exact H. }
  destruct (pass_from_reconciled fuel (set_now N2 s1) es) as [s2 [E2 [Hc2 Hl2]]].
  - exact Hd1.
  - exact Hst.
  - simpl. rewrite Hs1. exact Hrec.
  - exists s2. split; [exact E2|]. split; [exact Hc2|]. exact Hl2.
Qed.

Lemma second_pass_no_transfer_witness :
  exists s1, synchronize_data 0 false s_reload_online = Some (Ok tt, s1) /\
  exists s2, synchronize_data 0 false (set_now 5000 s1) = Some (Ok tt, s2) /\
    cache_md s2 = cache_md s1 /\
    exists l, log s2 = log s1 ++ l /\ forallb (fun e => negb (is_call e)) l = true.
Proof.
  apply (second_pass_no_transfer 0 s_reload_online [file "a.txt" 100; file "b.txt" 10] 5000).
  - reflexivity.
  - simpl. constructor; [simpl; intros [H|[]]; discriminate|].
    constructor; [simpl; tauto|constructor].
  - repeat constructor; simpl; lia.
  - reflexivity.
  - reflexivity.
  - reflexivity.
  - simpl. constructor; [simpl; intros [H|[]]; discriminate|].
    constructor; [simpl; tauto|constructor].
Defined.

(** ** Further properties of the code *)

(** *** Paths and settings *)

Lemma prefix_slash_app : forall a x,
  String.prefix "/" a = true -> String.prefix "/" (a ++ x) = true.
Proof.
  intros [|c a] x H; [discriminate|].
  change (String c a ++ x)%string with (String c (a ++ x)).
  destruct (a ++ x)%string; destruct a; exact H.
Qed.

Lemma isabs_path_join : forall a b, isabs a = true -> isabs (path_join a b) = true.
Proof.
  intros a b H. unfold isabs, path_join.
  destruct (String.prefix "/" b) eqn:Hb; [exact Hb|].
  destruct (String.eqb a "" || ends_with "/" a); apply prefix_slash_app; exact H.
Qed.

Lemma string_length_app : forall a b,
  String.length (a ++ b) = (String.length a + String.length b)%nat.
Proof. induction a as [|c a IH]; intro b; simpl; [reflexivity|rewrite IH; reflexivity]. Qed.

Lemma substring_app_r : forall a b m,
  substring (String.length a) m (a ++ b) = substring 0 m b.
Proof. induction a as [|c a IH]; intros b m; simpl; [reflexivity|apply IH]. Qed.

Lemma substring_all : forall b, substring 0 (String.length b) b = b.
Proof. induction b as [|c b IH]; simpl; [reflexivity|rewrite IH; reflexivity]. Qed.

Lemma ends_with_app : forall sfx x, ends_with sfx (x ++ sfx) = true.
Proof.
  intros sfx x. unfold ends_with. rewrite string_length_app.
  replace (String.length x + String.length sfx - String.length sfx)%nat
    with (String.length x) by lia.
  rewrite substring_app_r, substring_all, String.eqb_refl.
  apply andb_true_intro. split; [apply Nat.leb_le; lia|reflexivity].
Qed.

Lemma string_app_assoc : forall a b c : string, ((a ++ b) ++ c = a ++ (b ++ c))%string.
Proof. induction a as [|x a IH]; intros b c; simpl; [reflexivity|rewrite IH; reflexivity]. Qed.

Lemma ends_with_path_join : forall a x sfx, ends_with sfx (path_join a (x ++ sfx)) = true.
Proof.
  intros a x sfx. unfold path_join.
  destruct (String.prefix "/" (x ++ sfx)); [apply ends_with_app|].
  destruct (String.eqb a "" || ends_with "/" a).
  - rewrite <- string_app_assoc. apply ends_with_app.
  - rewrite <- string_app_assoc, <- string_app_assoc. apply ends_with_app.
Qed.

(** X1: [Settings.__init__] under an absolute project root: the period
    becomes its absolute value, the folder and log paths become absolute, and
    a path that is already absolute is kept. *)
Theorem settings_init_normalises : forall root st,
  isabs root = true ->
  0 <= synchronization_period (settings_init root st) /\
  synchronization_period (settings_init root st) = Z.abs (synchronization_period st) /\
  isabs (path_folder (settings_init root st)) = true /\
  isabs (path_log_file (settings_init root st)) = true /\
  (isabs (path_folder st) = true -> path_folder (settings_init root st) = path_folder st) /\
  (isabs (path_log_file st) = true -> path_log_file (settings_init root st) = path_log_file st).
Proof.
  intros root st Hr. unfold settings_init. simpl.
  destruct (synchronization_period st <? 0) eqn:Hp.
  - apply Z.ltb_lt in Hp. split; [lia|]. split; [lia|].
    destruct (isabs (path_folder st)) eqn:Hf, (isabs (path_log_file st)) eqn:Hl; simpl;
      repeat split; try reflexivity; try assumption; try apply isabs_path_join; try assumption;
      intro; discriminate.
  - apply Z.ltb_ge in Hp. split; [lia|]. split; [lia|].
    destruct (isabs (path_folder st)) eqn:Hf, (isabs (path_log_file st)) eqn:Hl; simpl;
      repeat split; try reflexivity; try assumption; try apply isabs_path_join; try assumption;
      intro; discriminate.
Qed.

Lemma settings_init_normalises_witness :
  isabs "/srv/app" = true /\
  synchronization_period (settings_init "/srv/app" (mkSettings "t" "data" "backup" (-60) "logs/app.log")) = 60 /\
  path_folder (settings_init "/srv/app" (mkSettings "t" "data" "backup" (-60) "logs/app.log")) = "/srv/app/data"%string.
Proof.
  split; [reflexivity|]. split.
  - pose proof (settings_init_normalises "/srv/app" (mkSettings "t" "data" "backup" (-60) "logs/app.log") eq_refl) as [_ [H _]].
    rewrite H. reflexivity.
  - vm_compute. reflexivity.
Defined.

(** X2: the cache path [launch_file_synchronizer] hands to [MetadataCache]
    ends up absolute and ending in [.json]; an absolute [.json] path is kept. *)
Theorem cache_path_absolute_json : forall main_root package_root pc,
  isabs main_root = true -> isabs package_root = true ->
  isabs (ensure_cache_file_exists package_root (launch_cache_path main_root pc)) = true /\
  ends_with ".json" (ensure_cache_file_exists package_root (launch_cache_path main_root pc)) = true /\
  (isabs pc = true -> ends_with ".json" pc = true ->
   ensure_cache_file_exists package_root (launch_cache_path main_root pc) = pc).
Proof.
  intros mr pr pc Hm Hp. unfold launch_cache_path, ensure_cache_file_exists.
  destruct (isabs pc) eqn:Ha; simpl.
  - destruct (ends_with ".json" pc) eqn:Hj.
    + split; [exact Ha|]. split; [exact Hj|]. intros; reflexivity.
    + split; [apply isabs_path_join; exact Hp|].
      split; [exact (ends_with_path_join pr "metadata_local_cache" ".json")|].
      intros _ H. discriminate.
  - destruct (ends_with ".json" (path_join mr pc)) eqn:Hj.
    + split; [apply isabs_path_join; exact Hm|]. split; [exact Hj|]. intro; discriminate.
    + split; [apply isabs_path_join; exact Hp|].
      split; [exact (ends_with_path_join pr "metadata_local_cache" ".json")|].
      intro; discriminate.
Qed.

Lemma cache_path_absolute_json_witness :
  isabs "/srv/app" = true /\ isabs "/srv/app/src" = true /\
  ensure_cache_file_exists "/srv/app/src" (launch_cache_path "/srv/app" "cache.txt")
    = "/srv/app/src/metadata_local_cache.json"%string /\
  ends_with ".json" (ensure_cache_file_exists "/srv/app/src" (launch_cache_path "/srv/app" "cache.txt")) = true.
Proof.
  split; [reflexivity|]. split; [reflexivity|]. split; [vm_compute; reflexivity|].
  exact (proj1 (proj2 (cache_path_absolute_json "/srv/app" "/srv/app/src" "cache.txt" eq_refl eq_refl))).
Defined.

(** *** [to_unix_timestamp] *)


Lemma round_ne_cases : forall a b,
  round_ne a b = a / b \/ (round_ne a b = a / b + 1 /\ b <= 2 * (a mod b)).
Proof.
  intros a b. unfold round_ne.
  destruct (2 * (a mod b) <? b) eqn:E1; [left; reflexivity|].
  apply Z.ltb_ge in E1.
  destruct (b <? 2 * (a mod b)); [right; split; [reflexivity|lia]|].
  destruct (Z.even (a / b)); [left; reflexivity|right; split; [reflexivity|lia]].
Qed.

(** Rounding [a * P / D] to an integer and dividing by [P] truncates
    [a / D] when [2 * P > D]: the rounding never carries into the next
    multiple of [P]. *)
Lemma round_div_pow : forall a D P,
  0 <= a -> 0 < D -> 0 < P -> D < 2 * P ->
  round_ne (a * P) D / P = a / D.
Proof.
  intros a D P Ha HD HP H2.
  pose proof (Z.div_mod a D ltac:(lia)) as Ea. pose proof (Z.mod_pos_bound a D HD) as Hrho.
  set (I := a / D) in *. set (rho := a mod D) in *.
  pose proof (Z.div_mod (rho * P) D ltac:(lia)) as Ej.
  pose proof (Z.mod_pos_bound (rho * P) D HD) as Hr.
  set (j := rho * P / D) in *. set (r := rho * P mod D) in *.
  assert (Hj0 : 0 <= j) by (apply Z.div_pos; nia).
  assert (HjP : j < P).
  { assert (D * j < D * P) by nia. nia. }
  assert (Hq : a * P / D = I * P + j).
  { symmetry. apply Z.div_unique with r; [left; exact Hr|]. nia. }
  assert (Hm : (a * P) mod D = r).
  { symmetry. apply Z.mod_unique with (I * P + j); [left; exact Hr|]. nia. }
  destruct (round_ne_cases (a * P) D) as [E|[E Hge]]; rewrite E, Hq.
  - symmetry. apply Z.div_unique with j; [left; lia|ring].
  - rewrite Hm in Hge.
    assert (Hlt : j + 1 < P).
    { destruct (Z_lt_le_dec (j + 1) P) as [Hl|Hl]; [exact Hl|exfalso].
      assert (A1 : rho * P <= (D - 1) * P) by (apply Z.mul_le_mono_nonneg_r; lia).
      assert (A2 : D * (P - 1) <= D * j) by (apply Z.mul_le_mono_nonneg_l; lia).
      nia. }
    symmetry. apply Z.div_unique with (j + 1); [left; lia|ring].
Qed.

Lemma quot_sgn_abs : forall N D, 0 < D -> Z.quot N D = Z.sgn N * (Z.abs N / D).
Proof.
  intros N D HD. destruct (Z.lt_trichotomy N 0) as [H|[H|H]].
  - rewrite Z.sgn_neg, Z.abs_neq by lia.
    replace N with (- (- N)) at 1 by lia. rewrite Z.quot_opp_l by lia.
    rewrite Z.quot_div_nonneg by lia. lia.
  - subst. reflexivity.
  - rewrite Z.sgn_pos, Z.abs_eq by lia. rewrite Z.quot_div_nonneg by lia. lia.
Qed.

(** Below [2**34] seconds in absolute value the float is never rounded
    onto another integer, so [int(N / 10**6)] is the truncated quotient. *)
Lemma float_trunc_div_exact : forall N,
  - (2 ^ 34 * 1000000) < N < 2 ^ 34 * 1000000 ->
  float_trunc_div N 1000000 = Z.quot N 1000000.
Proof.
  intros N HN. rewrite quot_sgn_abs by lia. unfold float_trunc_div.
  destruct (Z.abs N =? 0) eqn:E0.
  - apply Z.eqb_eq in E0. rewrite E0. lia.
  - apply Z.eqb_neq in E0. cbv zeta. f_equal.
    assert (Ha : 0 < Z.abs N < 2 ^ 34 * 1000000) by lia.
    set (a := Z.abs N) in *.
    set (X := a * 2 ^ 64 / 1000000).
    assert (HX1 : 1 <= X).
    { unfold X. apply Z.div_le_lower_bound; [lia|]. change (2 ^ 64) with 18446744073709551616. lia. }
    assert (HX2 : X < 2 ^ 98).
    { unfold X. apply Z.div_lt_upper_bound; [lia|].
      change (2 ^ 64) with 18446744073709551616. change (2 ^ 98) with 316912650057057350374175801344.
      change (2 ^ 34) with 17179869184 in Ha. lia. }
    assert (HL1 : 0 <= Z.log2 X) by (apply Z.log2_nonneg).
    assert (HL2 : Z.log2 X < 98) by (apply Z.log2_lt_pow2; lia).
    fold X. destruct (Z.log2 X - 64 - 52 <? 0) eqn:Ee; [|apply Z.ltb_ge in Ee; lia].
    apply round_div_pow; [lia|lia|apply Z.pow_pos_nonneg; lia|].
    assert (2 ^ 19 <= 2 ^ (- (Z.log2 X - 64 - 52))) by (apply Z.pow_le_mono_r; lia).
    change (2 ^ 19) with 524288 in *. lia.
Qed.

(** Past [2**34] seconds the float is rounded onto the next second:
    [3000-01-01T00:00:00.999999+00:00] gives [32503680001]. *)
Lemma int_timestamp_year_3000 :
  int_timestamp (mkDatetime 3000 1 1 0 0 0 999999 (Some 0)) 0 = 32503680001.
Proof. vm_compute. reflexivity. Qed.

Lemma int_timestamp_quot : forall dt off,
  0 <= dt_microsecond dt < 1000000 -> - 2 ^ 34 < wall_seconds dt - off < 2 ^ 34 ->
  int_timestamp dt off = Z.quot ((wall_seconds dt - off) * 1000000 + dt_microsecond dt) 1000000.
Proof.
  intros dt off Hu Hw. unfold int_timestamp. apply float_trunc_div_exact.
  change (2 ^ 34) with 17179869184 in *. lia.
Qed.

Lemma int_timestamp_exact : forall dt off,
  0 <= dt_microsecond dt < 1000000 -> 0 <= wall_seconds dt - off < 2 ^ 34 ->
  int_timestamp dt off = wall_seconds dt - off.
Proof.
  intros dt off Hu Hw. rewrite int_timestamp_quot by lia.
  rewrite Z.quot_div_nonneg by lia.
  rewrite Z.add_comm, Z.div_add by lia. rewrite Z.div_small by lia. lia.
Qed.








(** X3: [to_unix_timestamp] of a timestamp with an offset [off] is its
    wall-clock seconds minus [off] with [has_timezone], and the wall-clock
    seconds themselves without it, for results from 1970 up to [2**34]
    seconds (the year 2514), where the float keeps the whole seconds. *)
Theorem to_unix_timestamp_offset : forall fromisoformat local_utcoffset t dt off,
  fromisoformat t = Some dt -> dt_utcoffset dt = Some off ->
  0 <= dt_microsecond dt < 1000000 ->
  0 <= wall_seconds dt - off < 2 ^ 34 -> 0 <= wall_seconds dt < 2 ^ 34 ->
  to_unix_timestamp fromisoformat local_utcoffset t true = Some (wall_seconds dt - off) /\
  to_unix_timestamp fromisoformat local_utcoffset t false = Some (wall_seconds dt).
Proof.
  intros f lo t dt off Hf Ho Hu H1 H2. unfold to_unix_timestamp. rewrite Hf, Ho.
  split; f_equal; rewrite int_timestamp_exact by lia; lia.
Qed.


Lemma to_unix_timestamp_offset_witness :
  to_unix_timestamp (fun _ => Some (mkDatetime 2024 1 1 12 0 0 0 (Some 10800))) (fun _ => 0)
    "2024-01-01T12:00:00+03:00" true = Some 1704099600 /\
  to_unix_timestamp (fun _ => Some (mkDatetime 2024 1 1 12 0 0 0 (Some 10800))) (fun _ => 0)
    "2024-01-01T12:00:00+03:00" false = Some 1704110400.
Proof.
  exact (to_unix_timestamp_offset (fun _ => Some (mkDatetime 2024 1 1 12 0 0 0 (Some 10800)))
           (fun _ => 0) "2024-01-01T12:00:00+03:00" (mkDatetime 2024 1 1 12 0 0 0 (Some 10800)) 10800
           eq_refl eq_refl ltac:(simpl; lia) ltac:(vm_compute; split; congruence)
           ltac:(vm_compute; split; congruence)).
Defined.


(** *** The metadata cache *)

Lemma cache_md_put_cache : forall d s, cache_md (put_cache d s) = d.
Proof. intros d s. unfold put_cache. destruct (alias s); reflexivity. Qed.

Lemma log_put_cache : forall d s, log (put_cache d s) = log s.
Proof. intros d s. unfold put_cache. destruct (alias s); reflexivity. Qed.

Lemma local_info_put_cache : forall d s,
  local_info (put_cache d s) = if alias s then d else local_info s.
Proof. intros d s. unfold put_cache. destruct (alias s); reflexivity. Qed.

Lemma dict_get_pop_nodup : forall d k n,
  NoDup (dict_keys d) ->
  dict_get (dict_pop d k) n = if String.eqb n k then None else dict_get d n.
Proof.
  intros d k n H. destruct (String.eqb n k) eqn:E.
  - apply String.eqb_eq in E. subst n. apply dict_get_pop_self. exact H.
  - apply dict_get_pop_other. exact E.
Qed.

(** X5: after [update_file_cache(n, t)], [get_mod_time(n)] is [t] and every
    other name keeps its value; the write is dumped once. *)
Theorem cache_update_then_get : forall n t m s,
  fst ((update_file_cache n t ;; get_mod_time m) s) =
    Ok (if String.eqb m n then Some t else dict_get (cache_md s) m) /\
  log (snd ((update_file_cache n t ;; get_mod_time m) s)) = log s ++ [ECachePut n t].
Proof.
  intros n t m s. unfold bind, update_file_cache, modify, get_mod_time, gets, emit.
  cbn [cache_md log fst snd]. rewrite cache_md_put_cache, log_put_cache, dict_get_set. split; reflexivity.
Qed.

(** X6: [delete_file_cache] of an unknown name changes nothing; otherwise
    (distinct keys) the name is gone and every other name keeps its value. *)
Theorem cache_delete_then_get : forall n m s,
  (dict_mem (cache_md s) n = false -> delete_file_cache n s = (Ok tt, s)) /\
  (NoDup (dict_keys (cache_md s)) ->
   fst ((delete_file_cache n ;; get_mod_time m) s) =
     Ok (if String.eqb m n then None else dict_get (cache_md s) m)).
Proof.
  intros n m s. split.
  - intro H. unfold delete_file_cache. rewrite H. reflexivity.
  - intro Hnd. unfold bind, delete_file_cache, get_mod_time, gets.
    destruct (dict_mem (cache_md s) n) eqn:Hm.
    + simpl. rewrite cache_md_put_cache, dict_get_pop_nodup by exact Hnd. reflexivity.
    + simpl. destruct (String.eqb m n) eqn:E; [|reflexivity].
      apply String.eqb_eq in E. subst m. unfold dict_mem in Hm.
      destruct (dict_get (cache_md s) n); [discriminate|reflexivity].
Qed.

Lemma cache_delete_then_get_witness :
  dict_mem [("a.txt"%string, 5)] "b.txt" = false /\
  delete_file_cache "b.txt" (set_cache_md [("a.txt"%string, 5)] s_no_local_dir) =
    (Ok tt, set_cache_md [("a.txt"%string, 5)] s_no_local_dir) /\
  fst ((delete_file_cache "a.txt" ;; get_mod_time "a.txt")
         (set_cache_md [("a.txt"%string, 5)] s_no_local_dir)) = Ok None.
Proof.
  split; [reflexivity|]. split.
  - apply (proj1 (cache_delete_then_get "b.txt" "b.txt"
                    (set_cache_md [("a.txt"%string, 5)] s_no_local_dir))). reflexivity.
  - apply (proj2 (cache_delete_then_get "a.txt" "a.txt"
                    (set_cache_md [("a.txt"%string, 5)] s_no_local_dir))).
    repeat constructor. simpl. tauto.
Defined.

(** *** The local storage manager *)

Lemma in_keys_set : forall d k v n,
  In n (dict_keys (dict_set d k v)) <-> In n (dict_keys d) \/ n = k.
Proof.
  intros d k v n. rewrite <- !dict_mem_in, dict_mem_set.
  destruct (String.eqb n k) eqn:E.
  - apply String.eqb_eq in E. tauto.
  - apply String.eqb_neq in E. tauto.
Qed.

Lemma local_info_step_ok : forall sync acc le s acc' s',
  local_info_step sync acc le s = (Ok acc', s') ->
  s' = s /\ acc' = local_snapshot_step sync acc le.
Proof.
  intros sync acc le s acc' s' H.
  unfold local_info_step, local_snapshot_step in *.
  destruct (le_isfile le && negb (String.prefix "~" (le_name le))).
  - unfold try_catch, bind, get_file_time_modified in H.
    destruct (le_stat_err le) as [e|].
    + destruct (is_oserror e) eqn:E; simpl in H.
      * discriminate.
      * rewrite E in H. discriminate.
    + simpl in H. inversion H. auto.
  - inversion H. auto.
Qed.

Lemma fold_local_ok : forall es sync acc s d s',
  fold_m (local_info_step sync) acc es s = (Ok d, s') ->
  s' = s /\ d = fold_left (local_snapshot_step sync) es acc.
Proof.
  induction es as [|le r IH]; intros sync acc s d s' H; simpl in H.
  - inversion H. auto.
  - unfold bind in H.
    destruct (local_info_step sync acc le s) as [[acc1|e] s1] eqn:Hs; [|discriminate].
    apply local_info_step_ok in Hs as [-> ->]. exact (IH _ _ _ _ _ H).
Qed.

Lemma local_get_info_ok : forall s es d s',
  ldir s = Some es -> local_get_info s = (Ok d, s') ->
  s' = s /\ d = local_snapshot (sync_time s) es.
Proof.
  intros s es d s' Hd H. unfold local_get_info, try_catch in H. rewrite Hd in H.
  destruct (fold_m (local_info_step (sync_time s)) [] es s) as [[d1|e] s1] eqn:Hf.
  - inversion H; subst. exact (fold_local_ok _ _ _ _ _ _ Hf).
  - destruct (is_oserror e); discriminate.
Qed.

Lemma snapshot_fold_keys : forall sync es acc n,
  In n (dict_keys (fold_left (local_snapshot_step sync) es acc)) <->
  In n (dict_keys acc) \/
  exists le, In le es /\ le_name le = n /\ le_isfile le = true /\ String.prefix "~" n = false.
Proof.
  intros sync. induction es as [|le r IH]; intros acc n; simpl.
  - split; [tauto|]. intros [H|[le [[] _]]]. exact H.
  - rewrite IH. unfold local_snapshot_step.
    destruct (le_isfile le && negb (String.prefix "~" (le_name le))) eqn:E.
    + rewrite in_keys_set. apply andb_prop in E as [Ef Ep]. apply negb_true_iff in Ep.
      split.
      * intros [[H|H]|[le' [H1 H2]]].
        -- left. exact H.
        -- right. exists le. subst n. auto.
        -- right. exists le'. auto.
      * intros [H|[le' [[H1|H1] H2]]].
        -- left. left. exact H.
        -- subst le'. left. right. symmetry. apply H2.
        -- right. exists le'. auto.
    + split.
      * intros [H|[le' [H1 H2]]]; [left; exact H|right; exists le'; auto].
      * intros [H|[le' [[H1|H1] H2]]].
        -- left. exact H.
        -- subst le'. destruct H2 as [Hn [Hf Hp]]. subst n.
           rewrite Hf, Hp in E. discriminate.
        -- right. exists le'. auto.
Qed.

(** X8: the local listing lists exactly the regular files not starting with
    [~], each once, and on success leaves the state (and the log) alone. *)
Theorem local_get_info_lists_files : forall s es d s',
  ldir s = Some es -> local_get_info s = (Ok d, s') ->
  s' = s /\ NoDup (dict_keys d) /\
  (forall n, In n (dict_keys d) <->
     exists le, In le es /\ le_name le = n /\ le_isfile le = true /\
                String.prefix "~" n = false).
Proof.
  intros s es d s' Hd H. destruct (local_get_info_ok s es d s' Hd H) as [-> ->].
  split; [reflexivity|]. split.
  - apply snapshot_fold_nodup. constructor.
  - intro n. unfold local_snapshot. rewrite snapshot_fold_keys. simpl. tauto.
Qed.

Definition s_listing : state :=
  mkState (Some [file "a.txt" 10; file "~lock" 11; mkLentry "sub" false 12 None])
    (Some []) NetOk [] 0 0 0 [] [] [] false [].

Lemma local_get_info_lists_files_witness :
  local_get_info s_listing = (Ok [("a.txt"%string, 10)], s_listing) /\
  NoDup (dict_keys [("a.txt"%string, 10)]).
Proof.
  split; [reflexivity|].
  exact (proj1 (proj2 (local_get_info_lists_files s_listing _ _ _ eq_refl eq_refl))).
Defined.

Lemma find_remove_other : forall n m es,
  m <> n -> find_lentry m (remove_lentry n es) = find_lentry m es.
Proof.
  intros n m. induction es as [|e r IH]; intro Hmn; simpl; [reflexivity|].
  destruct (String.eqb n (le_name e)) eqn:E.
  - apply String.eqb_eq in E. destruct (String.eqb m (le_name e)) eqn:F.
    + apply String.eqb_eq in F. congruence.
    + reflexivity.
  - simpl. rewrite IH by exact Hmn. reflexivity.
Qed.

Lemma find_lentry_none : forall n es,
  ~ In n (map le_name es) -> find_lentry n es = None.
Proof.
  intros n. induction es as [|e r IH]; intro H; simpl; [reflexivity|].
  destruct (String.eqb n (le_name e)) eqn:E.
  - apply String.eqb_eq in E. exfalso. apply H. left. symmetry. exact E.
  - apply IH. intro Hin. apply H. right. exact Hin.
Qed.

Lemma find_remove_self : forall n es,
  NoDup (map le_name es) -> find_lentry n (remove_lentry n es) = None.
Proof.
  intros n. induction es as [|e r IH]; intro H; simpl; [reflexivity|].
  simpl in H. apply NoDup_cons_iff in H as [Hn Hnd].
  destruct (String.eqb n (le_name e)) eqn:E.
  - apply String.eqb_eq in E. subst n. apply find_lentry_none. exact Hn.
  - simpl. rewrite E. apply IH. exact Hnd.
Qed.

Lemma faulty_delete_local_eq : forall n cs,
  existsb (fun c => match c with CDeleteLocal m => String.eqb m n | _ => false end) cs =
  existsb (call_eqb (CDeleteLocal n)) cs.
Proof.
  intros n. induction cs as [|c r IH]; [reflexivity|].
  simpl. f_equal; [|exact IH]. destruct c; try reflexivity. apply String.eqb_sym.
Qed.

(** X10: [ManagerLocalStorage.delete]: a missing file raises
    [FileNotFoundError] and changes nothing; a regular file whose removal
    is not refused is removed, and the other entries are kept. *)
Theorem local_delete_outcomes : forall n s es,
  ldir s = Some es ->
  (find_lentry n es = None -> local_delete n s = (Exc FileNotFoundError, s)) /\
  (forall le, NoDup (map le_name es) -> find_lentry n es = Some le -> le_isfile le = true ->
     faulty (CDeleteLocal n) s = false ->
     exists es', local_delete n s = (Ok tt, set_ldir (Some es') s) /\
       find_lentry n es' = None /\ (forall m, m <> n -> find_lentry m es' = find_lentry m es)).
Proof.
  intros n s es Hd. unfold local_delete. rewrite Hd. split.
  - intro H. rewrite H. reflexivity.
  - intros le Hnd H Hf Hc. rewrite H, Hf, orb_false_r.
    assert (E : existsb (fun c => match c with CDeleteLocal m => String.eqb m n | _ => false end)
                  (faults s) = false).
    { unfold faulty in Hc. rewrite faulty_delete_local_eq. exact Hc. }
    rewrite E. exists (remove_lentry n es). split; [reflexivity|]. split.
    + apply find_remove_self. exact Hnd.
    + intros m Hm. apply find_remove_other. exact Hm.
Qed.

Lemma local_delete_outcomes_witness :
  local_delete "b.txt" s_listing = (Exc FileNotFoundError, s_listing) /\
  exists es', local_delete "a.txt" s_listing = (Ok tt, set_ldir (Some es') s_listing) /\
    find_lentry "a.txt" es' = None.
Proof.
  split.
  - apply (proj1 (local_delete_outcomes "b.txt" s_listing _ eq_refl)). reflexivity.
  - destruct (proj2 (local_delete_outcomes "a.txt" s_listing _ eq_refl) (file "a.txt" 10))
      as [es' [E [N _]]].
    + repeat constructor; simpl; intuition discriminate.
    + reflexivity.
    + reflexivity.
    + reflexivity.
    + exists es'. split; [exact E|exact N].
Defined.


(** A local file [a.txt] and a remote file [b.txt], offset 3. *)
Definition s_download : state :=
  mkState (Some [file "a.txt" 5]) (Some [mkRentry "b.txt" true 7]) NetOk [] 100 0 3 [] [] [] false [].

(** ** [_update_data] and [_delete_data] *)

(** While the cache shares the local snapshot, the two dicts are equal. *)
Definition alias_ok (s : state) : Prop := alias s = true -> cache_md s = local_info s.

(** X17: [_update_data(n, info)] stores the corrected local time
    [ceil(time()) + offset] for [n] in the given snapshot and in the cache,
    keeps every other entry of the snapshot, and keeps a shared cache equal
    to the local snapshot. *)
Theorem update_data_records : forall n r s,
  alias_ok s ->
  exists s', update_data n r s = (Ok tt, s') /\
    dict_get (cache_md s') n = Some (get_time_correlation (now s) (sync_time s)) /\
    (forall m, dict_get (get_ref r s') m =
       if String.eqb m n then Some (get_time_correlation (now s) (sync_time s))
       else dict_get (get_ref r s) m) /\
    alias_ok s'.
Proof.
  intros n r s Ha. unfold alias_ok in *. eexists. split; [reflexivity|].
  unfold update_data, update_file_cache, modify, snd.
  set (t := get_time_correlation (now s) (sync_time s)).
  destruct r; cbn [get_ref put_ref];
    destruct (alias s) eqn:Hal; unfold put_cache;
    cbn [emit set_cache_md set_local_info set_cloud_info cache_md local_info cloud_info alias];
    rewrite Hal; cbn [emit set_cache_md set_local_info set_cloud_info cache_md local_info cloud_info alias];
    rewrite ?dict_get_set, ?String.eqb_refl; (split; [reflexivity|]);
    split; try (intro m; rewrite ?dict_get_set; destruct (String.eqb m n); reflexivity);
    try (intros; reflexivity); try (intro; discriminate).
  all: intro E; rewrite Hal in E; discriminate.
Qed.

Lemma update_data_records_witness :
  alias_ok s_download /\
  exists s', update_data "a.txt" RLocal s_download = (Ok tt, s') /\
    dict_get (cache_md s') "a.txt" = Some 103.
Proof.
  assert (H : alias_ok s_download) by (intro E; discriminate E).
  split; [exact H|].
  destruct (update_data_records "a.txt" RLocal s_download H) as [s' [E [C _]]].
  exists s'. split; [exact E|exact C].
Defined.


Lemma dict_get_not_mem : forall d n, dict_mem d n = false -> dict_get d n = None.
Proof. intros d n H. unfold dict_mem in H. destruct (dict_get d n); [discriminate|reflexivity]. Qed.

Lemma dict_mem_pop_self : forall d n, NoDup (dict_keys d) -> dict_mem (dict_pop d n) n = false.
Proof. intros d n H. unfold dict_mem. rewrite dict_get_pop_self by exact H. reflexivity. Qed.

(** X18: [_delete_data(n, info)] (distinct keys, a shared cache equal to the
    local snapshot) removes [n] from the given snapshot and from the cache,
    keeps every other entry of the snapshot, and keeps a shared cache equal
    to the local snapshot. *)
Theorem delete_data_forgets : forall n r s,
  alias_ok s -> NoDup (dict_keys (get_ref r s)) -> NoDup (dict_keys (cache_md s)) ->
  exists s', delete_data n r s = (Ok tt, s') /\
    dict_get (get_ref r s') n = None /\ dict_get (cache_md s') n = None /\
    (forall m, m <> n -> dict_get (get_ref r s') m = dict_get (get_ref r s) m) /\
    alias_ok s'.
Proof.
  intros n r s Ha Hr Hc. unfold alias_ok in *. unfold delete_data, delete_file_cache.
  destruct r; cbn [get_ref put_ref] in *;
    [destruct (dict_mem (local_info s) n) eqn:Hm|destruct (dict_mem (cloud_info s) n) eqn:Hm];
    destruct (alias s) eqn:Hal; cbv zeta iota;
    cbn [set_cache_md set_local_info set_cloud_info cache_md local_info cloud_info alias];
    rewrite ?Hal; unfold put_cache;
    cbn [set_cache_md set_local_info set_cloud_info cache_md local_info cloud_info alias];
    rewrite ?Hal.
  all: try (assert (Ha' := Ha eq_refl); rewrite Ha' in *).
  all: rewrite ?dict_mem_pop_self by assumption.
  all: try match goal with |- exists _, (if dict_mem ?d ?k then _ else _) = _ /\ _ =>
         destruct (dict_mem d k) eqn:Hc2 end;
       eexists; (split; [reflexivity|]);
       cbn [emit set_cache_md set_local_info set_cloud_info cache_md local_info cloud_info alias];
       rewrite ?Hal.
  all: split; [|split; [|split]];
       first [ reflexivity
             | apply dict_get_pop_self; assumption
             | apply dict_get_not_mem; assumption
             | intros m Hmn; apply dict_get_pop_other; apply String.eqb_neq; exact Hmn
             | intros m Hmn; reflexivity
             | intros _; reflexivity
             | intro E; discriminate E
             | intros _; exact Ha'
             | rewrite Ha'; apply dict_get_not_mem; assumption ].
Qed.

Definition s_shared : state :=
  mkState (Some []) (Some []) NetOk [] 0 0 0 [("a.txt"%string, 1); ("b.txt"%string, 2)] []
    [("a.txt"%string, 1); ("b.txt"%string, 2)] true [].

Lemma delete_data_forgets_witness :
  alias_ok s_shared /\
  exists s', delete_data "a.txt" RLocal s_shared = (Ok tt, s') /\
    local_info s' = [("b.txt"%string, 2)] /\ cache_md s' = [("b.txt"%string, 2)].
Proof.
  assert (Ha : alias_ok s_shared) by (intros _; reflexivity).
  assert (Hn : NoDup (dict_keys [("a.txt"%string, 1); ("b.txt"%string, 2)]))
    by (repeat constructor; simpl; intuition discriminate).
  split; [exact Ha|].
  destruct (delete_data_forgets "a.txt" RLocal s_shared Ha Hn Hn) as [s' [E _]].
  exists s'. split; [exact E|]. unfold delete_data in E. vm_compute in E.
  inversion E. split; reflexivity.
Defined.

(** ** Loading the cache file *)




